(** * NodeSentinel: the alert decision layer

    A shallow embedding of the stateful decision code of
    [crypto_utils.py] (fee hysteresis, price volatility anti-spam,
    periodic macro report) and of [nodesentinel.py] (persistence
    debouncers, keyed disk cooldown, peer / channel set differences),
    with the properties the specification states about them.

    Numbers.  Python compares and subtracts [float]s and [int]s; the
    embedding uses the rationals [Q], on which the comparisons of the
    source are the usual total order.  A NaN, on which every comparison of
    the source is false, has no counterpart here.  Clock readings
    ([time.time()]) are inputs of each cycle. *)

From Stdlib Require Import QArith Qabs Qminmax Qround Lqa Sorted Ascii DecimalString.
From stdpp Require Import gmap strings list sorting.

(** ** Comparisons of the source, as boolean functions on [Q] *)

Module Num.

Definition gtb (x y : Q) : bool := negb (Qle_bool x y).
Definition ltb (x y : Q) : bool := negb (Qle_bool y x).
Definition leb (x y : Q) : bool := Qle_bool x y.
Definition geb (x y : Q) : bool := Qle_bool y x.
Definition neqb (x y : Q) : bool := negb (Qeq_bool x y).
Definition eqb (x y : Q) : bool := Qeq_bool x y.

Global Arguments gtb : simpl never.
Global Arguments ltb : simpl never.
Global Arguments leb : simpl never.
Global Arguments geb : simpl never.
Global Arguments neqb : simpl never.
Global Arguments eqb : simpl never.

End Num.

(** ** Python's [needle in haystack] on strings *)

Fixpoint str_prefix (p s : string) : bool :=
  match p, s with
  | EmptyString, _ => true
  | String a p', String b s' => if Ascii.eqb a b then str_prefix p' s' else false
  | String _ _, EmptyString => false
  end.

Fixpoint str_contains (needle s : string) : bool :=
  str_prefix needle s ||
  match s with
  | EmptyString => false
  | String _ s' => str_contains needle s'
  end.

(** * crypto_utils.py *)

Module Crypto.

(** [current_fee_state] / [new_fee_state]: the five strings of the source. *)
Inductive fee_state := INIT | NORMAL | HIGH | LOW | MEDIUM.

Global Instance fee_state_eq_dec : EqDecision fee_state.
Proof. solve_decision. Defined.

Inductive magnitude := MAJOR | SIGNIFICANT.

(** The texts handed to [send_alert], one constructor per f-string, with
    the values the text interpolates. *)
Inductive alert :=
  | FeeHighAlert (fee : Q)
  | FeeMediumAlert (fee : Q)
  | FeeLowAlert (fee : Q)
  | FeesNormalizedAlert (fee : Q)
  | PriceRiseAlert (m : magnitude) (change_abs change_pct price : Q)
  | PriceCrashAlert (m : magnitude) (change_abs change_pct price : Q)
  | ContextFollowUp (context : string)
  | MacroReport (context : string).

Definition is_fee_alert (a : alert) : bool :=
  match a with
  | FeeHighAlert _ | FeeMediumAlert _ | FeeLowAlert _ | FeesNormalizedAlert _ => true
  | _ => false
  end.

Definition is_volatility_alert (a : alert) : bool :=
  match a with
  | PriceRiseAlert _ _ _ _ | PriceCrashAlert _ _ _ _ => true
  | _ => false
  end.

Definition is_fees_normalized (a : alert) : bool :=
  match a with FeesNormalizedAlert _ => true | _ => false end.

(** An entry of [PRICE_HISTORY]: the price dict with its ['time'] key. *)
Record price_entry := { eur : Q; usd : Q; time : Q }.

(** The variables [surveillance_task] keeps across iterations: its locals
    and the module globals it assigns. *)
Record state := {
  current_fee_state : fee_state;
  last_fee_alert_ts : Q;
  last_price_volatility_alert_ts : Q;
  LAST_VOLATILITY_REFERENCE_USD : Q;
  LAST_MACRO_REPORT_TS : Q;
  PRICE_HISTORY : list price_entry
}.

Definition initial_state : state :=
  {| current_fee_state := INIT;
     last_fee_alert_ts := 0;
     last_price_volatility_alert_ts := 0;
     LAST_VOLATILITY_REFERENCE_USD := 0;
     LAST_MACRO_REPORT_TS := 0;
     PRICE_HISTORY := [] |}.

(** What one iteration of the loop reads from outside: the clock, the two
    fetches ([None] for the error result), and the texts returned by
    [perform_contextual_analysis]. *)
Record cycle := {
  now : Q;
  fees : option (gmap string Q);
  price_response : option (gmap string Q);
  price_stamp : Q;
  price_prune_clock : Q;
  analysis_context : string;
  macro_context : string
}.

Definition ALERT_COOLDOWN : Q := 300.
Definition PRICE_VOLATILITY_COOLDOWN : Q := 4 * 3600.
Definition MACRO_REPORT_COOLDOWN : Q := 24 * 3600.

Section Thresholds.

(** [FEE_HIGH_THRESHOLD] is imported by the task and never read. *)
Variables FEE_LOW_THRESHOLD FEE_MED_THRESHOLD FEE_HIGH_THRESHOLD : Q.
Variables PRICE_CHANGE_THRESHOLD_LOW PRICE_CHANGE_THRESHOLD_HIGH : Q.

(** Lines 198-206: the level computed from the sample. *)
Definition classify_fee (current_fast_fee : Q) : fee_state :=
  if Num.gtb current_fast_fee FEE_MED_THRESHOLD then HIGH
  else if Num.leb current_fast_fee FEE_LOW_THRESHOLD then LOW
  else if Num.gtb current_fast_fee FEE_LOW_THRESHOLD
          && Num.leb current_fast_fee FEE_MED_THRESHOLD then MEDIUM
  else NORMAL.

(** Lines 211-222: the message chosen from the new level. *)
Definition fee_message (cur new : fee_state) (fee : Q) : list alert :=
  match new with
  | HIGH => [FeeHighAlert fee]
  | MEDIUM => [FeeMediumAlert fee]
  | LOW => [FeeLowAlert fee]
  | NORMAL => if decide (cur <> NORMAL) then [FeesNormalizedAlert fee] else []
  | INIT => []
  end.

(** Lines 194-231.  A dict is true when it is not empty;
    [fees.get('fastestFee', 0)] defaults to 0. *)
Definition fee_section (c : cycle) (st : state) : state * list alert :=
  match fees c with
  | None => (st, [])
  | Some f =>
    if decide (f = ∅) then (st, []) else
    let current_fast_fee := default 0%Q (f !! "fastestFee"%string) in
    let new_fee_state := classify_fee current_fast_fee in
    if bool_decide (current_fee_state st <> INIT)
       && bool_decide (new_fee_state <> current_fee_state st)
       && Num.gtb (now c - last_fee_alert_ts st) ALERT_COOLDOWN
    then
      ({| current_fee_state := new_fee_state;
          last_fee_alert_ts := now c;
          last_price_volatility_alert_ts := last_price_volatility_alert_ts st;
          LAST_VOLATILITY_REFERENCE_USD := LAST_VOLATILITY_REFERENCE_USD st;
          LAST_MACRO_REPORT_TS := LAST_MACRO_REPORT_TS st;
          PRICE_HISTORY := PRICE_HISTORY st |},
       fee_message (current_fee_state st) new_fee_state current_fast_fee)
    else if bool_decide (current_fee_state st = INIT) then
      ({| current_fee_state := new_fee_state;
          last_fee_alert_ts := last_fee_alert_ts st;
          last_price_volatility_alert_ts := last_price_volatility_alert_ts st;
          LAST_VOLATILITY_REFERENCE_USD := LAST_VOLATILITY_REFERENCE_USD st;
          LAST_MACRO_REPORT_TS := now c;
          PRICE_HISTORY := PRICE_HISTORY st |}, [])
    else (st, [])
  end.

(** [update_price_history]: the entry is stamped with one clock reading,
    appended, and the list is filtered against a second reading. *)
Definition update_price_history (new_prices : Q * Q) (stamp prune_clock : Q)
    (history : list price_entry) : list price_entry :=
  let appended :=
    history ++ [{| eur := fst new_prices; usd := snd new_prices; time := stamp |}] in
  let four_hours_ago := (prune_clock - 4 * 3600)%Q in
  List.filter (fun d => Num.gtb (time d) four_hours_ago) appended.

(** [get_price_data] after the request: [None] on an exception, and a
    price pair only when both prices are present and not zero. *)
Definition get_price_data (response : option (gmap string Q)) : option (Q * Q) :=
  match response with
  | None => None
  | Some price_data =>
    match price_data !! "eur"%string, price_data !! "usd"%string with
    | Some eur_price, Some usd_price =>
      if Num.neqb eur_price 0 && Num.neqb usd_price 0
      then Some (eur_price, usd_price) else None
    | _, _ => None
    end
  end.

(** Line 243: [next((d for d in price_history if d['time'] < cutoff), None)],
    the first entry of the list that passes the test. *)
Definition old_price_lookup (now_ : Q) (price_history : list price_entry)
    : option price_entry :=
  let one_hundred_twenty_minutes_ago := (now_ - 120 * 60)%Q in
  List.find (fun d => Num.ltb (time d) one_hundred_twenty_minutes_ago) price_history.

(** The lookup as the specification words it, for comparison with
    [old_price_lookup]: among the entries older than the lookback window,
    the one with the latest time stamp. *)
Definition most_recent_older (now_ : Q) (price_history : list price_entry)
    : option price_entry :=
  let one_hundred_twenty_minutes_ago := (now_ - 120 * 60)%Q in
  fold_left
    (fun best d =>
       if Num.ltb (time d) one_hundred_twenty_minutes_ago then
         match best with
         | Some b => if Num.geb (time d) (time b) then Some d else Some b
         | None => Some d
         end
       else best)
    price_history None.

Definition with_history (st : state) (h : list price_entry) : state :=
  {| current_fee_state := current_fee_state st;
     last_fee_alert_ts := last_fee_alert_ts st;
     last_price_volatility_alert_ts := last_price_volatility_alert_ts st;
     LAST_VOLATILITY_REFERENCE_USD := LAST_VOLATILITY_REFERENCE_USD st;
     LAST_MACRO_REPORT_TS := LAST_MACRO_REPORT_TS st;
     PRICE_HISTORY := h |}.

Definition with_reference (st : state) (r : Q) : state :=
  {| current_fee_state := current_fee_state st;
     last_fee_alert_ts := last_fee_alert_ts st;
     last_price_volatility_alert_ts := last_price_volatility_alert_ts st;
     LAST_VOLATILITY_REFERENCE_USD := r;
     LAST_MACRO_REPORT_TS := LAST_MACRO_REPORT_TS st;
     PRICE_HISTORY := PRICE_HISTORY st |}.

Definition with_volatility_alert (st : state) (r ts : Q) : state :=
  {| current_fee_state := current_fee_state st;
     last_fee_alert_ts := last_fee_alert_ts st;
     last_price_volatility_alert_ts := ts;
     LAST_VOLATILITY_REFERENCE_USD := r;
     LAST_MACRO_REPORT_TS := LAST_MACRO_REPORT_TS st;
     PRICE_HISTORY := PRICE_HISTORY st |}.

Definition with_macro_ts (st : state) (ts : Q) : state :=
  {| current_fee_state := current_fee_state st;
     last_fee_alert_ts := last_fee_alert_ts st;
     last_price_volatility_alert_ts := last_price_volatility_alert_ts st;
     LAST_VOLATILITY_REFERENCE_USD := LAST_VOLATILITY_REFERENCE_USD st;
     LAST_MACRO_REPORT_TS := ts;
     PRICE_HISTORY := PRICE_HISTORY st |}.

(** Lines 254-255: the reference after the reset check. *)
Definition reset_check (current_price_usd reference : Q) : Q :=
  if Num.neqb reference 0
     && Num.ltb (Qabs (current_price_usd - reference)) (PRICE_CHANGE_THRESHOLD_LOW / 2)
  then 0%Q else reference.

(** Lines 272-285: the first message of a volatility alert. *)
Definition volatility_message (change_abs_usd change_pct current_price_usd : Q) : alert :=
  if Num.gtb change_abs_usd 0 then
    PriceRiseAlert
      (if Num.geb change_abs_usd PRICE_CHANGE_THRESHOLD_HIGH then MAJOR else SIGNIFICANT)
      change_abs_usd change_pct current_price_usd
  else
    PriceCrashAlert
      (if Num.geb (Qabs change_abs_usd) PRICE_CHANGE_THRESHOLD_HIGH then MAJOR else SIGNIFICANT)
      (- change_abs_usd) (- change_pct) current_price_usd.

(** Lines 246-298: the body run once an old sample has been found and both
    prices are positive. *)
Definition volatility_eval (c : cycle) (current_price_usd old_price_usd : Q)
    (st : state) : state * list alert :=
  let change_abs_usd := (current_price_usd - old_price_usd)%Q in
  let change_pct := (change_abs_usd / old_price_usd * 100)%Q in
  let reference := reset_check current_price_usd (LAST_VOLATILITY_REFERENCE_USD st) in
  let is_significant_change := Num.geb (Qabs change_abs_usd) PRICE_CHANGE_THRESHOLD_LOW in
  let is_alert_needed :=
    bool_decide (current_fee_state st <> INIT)
    && is_significant_change
    && Num.gtb (now c - last_price_volatility_alert_ts st) PRICE_VOLATILITY_COOLDOWN
    && Num.eqb reference 0 in
  if is_alert_needed then
    (with_volatility_alert st current_price_usd (now c),
     [volatility_message change_abs_usd change_pct current_price_usd;
      ContextFollowUp (analysis_context c)])
  else (with_reference st reference, []).

(** Lines 235-298. *)
Definition price_section (c : cycle) (st : state) : state * list alert :=
  match get_price_data (price_response c) with
  | None => (st, [])
  | Some prices =>
    let st1 := with_history st
      (update_price_history prices (price_stamp c) (price_prune_clock c)
         (PRICE_HISTORY st)) in
    let current_price_usd := snd prices in
    match old_price_lookup (now c) (PRICE_HISTORY st1) with
    | Some old_price_data =>
      if Num.gtb current_price_usd 0 && Num.gtb (usd old_price_data) 0
      then volatility_eval c current_price_usd (usd old_price_data) st1
      else (st1, [])
    | None => (st1, [])
    end
  end.

(** Lines 303-317: the periodic report and its novelty filter. *)
Definition macro_section (c : cycle) (st : state) : state * list alert :=
  if bool_decide (current_fee_state st <> INIT)
     && Num.gtb (now c - LAST_MACRO_REPORT_TS st) MACRO_REPORT_COOLDOWN
  then
    (with_macro_ts st (now c),
     if negb (str_contains "Contextual Analysis Failed" (macro_context c))
        && negb (str_contains "NESSUN AGGIORNAMENTO MACRO SIGNIFICATIVO" (macro_context c))
     then [MacroReport (macro_context c)] else [])
  else (st, []).

(** One iteration of the [while True] loop: the three sections in order,
    with the messages they send. *)
Definition surveillance_step (c : cycle) (st : state) : state * list alert :=
  let '(st1, a1) := fee_section c st in
  let '(st2, a2) := price_section c st1 in
  let '(st3, a3) := macro_section c st2 in
  (st3, a1 ++ a2 ++ a3).

(** The loop over a finite prefix of its iterations. *)
Fixpoint surveillance_run (cs : list cycle) (st : state) : state * list alert :=
  match cs with
  | [] => (st, [])
  | c :: cs' =>
    let '(st1, a1) := surveillance_step c st in
    let '(st2, a2) := surveillance_run cs' st1 in
    (st2, a1 ++ a2)
  end.

End Thresholds.

(** ** Vocabulary of the statements and sample inputs *)

(** A cycle whose fee fetch gave nothing: the error result or an empty
    dict, both false in [if fees:]. *)
Definition fee_fetch_failed (c : cycle) : Prop :=
  fees c = None \/ fees c = Some ∅.

(** Sample inputs used to run the definitions. *)
Definition t0 : Q := 1700000000.

Definition fee_cycle (at_ fee : Q) : cycle :=
  {| now := at_;
     fees := Some {[ "fastestFee"%string := fee ]};
     price_response := None;
     price_stamp := at_; price_prune_clock := at_;
     analysis_context := "analysis"; macro_context := "macro" |}.

Definition price_cycle (at_ price : Q) : cycle :=
  {| now := at_;
     fees := None;
     price_response := Some {[ "eur"%string := price; "usd"%string := price ]};
     price_stamp := at_; price_prune_clock := at_;
     analysis_context := "analysis"; macro_context := "macro" |}.

Definition running (level : fee_state) (fee_ts vol_ts reference macro_ts : Q)
    (history : list price_entry) : state :=
  {| current_fee_state := level;
     last_fee_alert_ts := fee_ts;
     last_price_volatility_alert_ts := vol_ts;
     LAST_VOLATILITY_REFERENCE_USD := reference;
     LAST_MACRO_REPORT_TS := macro_ts;
     PRICE_HISTORY := history |}.

(** A history in the order of its time stamps, as appending produces it
    under a clock that does not go back. *)
Definition chronological (h : list price_entry) : Prop :=
  StronglySorted (fun a b => (time a <= time b)%Q) h.

(** The price section reaches its evaluation with current price [cur] and
    old price [old]. *)
Definition evaluates (c : cycle) (st : state) (cur old : Q) : Prop :=
  exists e d,
    get_price_data (price_response c) = Some (e, cur) /\
    old_price_lookup (now c)
      (update_price_history (e, cur) (price_stamp c) (price_prune_clock c)
         (PRICE_HISTORY st)) = Some d /\
    usd d = old /\ (0 < cur)%Q /\ (0 < old)%Q.

(** Histories and states for the worked cases below. *)
Definition entry (price at_ : Q) : price_entry :=
  {| eur := price; usd := price; time := at_ |}.

Definition three_samples : list price_entry :=
  [entry 60000 t0; entry 61500 (t0 + 2700); entry 61550 (t0 + 5400)].

End Crypto.

(** * nodesentinel.py: the remote monitoring task *)

(** Section 1 of [monitor_system_task] (hardware and disks).  Section 2
    (service status) keeps its own variables, reads none of section 1 and
    is left out. *)

Module Sentinel.

Inductive quantity := CPU | RAM | LOAD.

Global Instance quantity_eq_dec : EqDecision quantity.
Proof. solve_decision. Defined.

(** The texts [monitor_system_task] hands to [send_alert] in its hardware
    section, with the reading each one reports. *)
Inductive alert :=
  | RecoveryAlert (q : quantity) (reading : Q)
  | RisingAlert (q : quantity) (reading : Q)
  | DiskAlert (mount : string) (pct used : Z).

Definition is_rising (q : quantity) (a : alert) : bool :=
  match a with RisingAlert q' _ => bool_decide (q' = q) | _ => false end.

Definition is_recovery (q : quantity) (a : alert) : bool :=
  match a with RecoveryAlert q' _ => bool_decide (q' = q) | _ => false end.

Definition about (q : quantity) (a : alert) : bool := is_rising q a || is_recovery q a.

(** The three variables kept per quantity: [cpu_high_count],
    [is_cpu_alert_active], [last_remote_cpu_alert], and likewise for RAM and
    load. *)
Record debouncer := {
  high_count : nat;
  is_alert_active : bool;
  last_remote_alert : Q
}.

Definition fresh : debouncer :=
  {| high_count := 0; is_alert_active := false; last_remote_alert := 0 |}.

Definition PERSISTENCE_COUNT : nat := 3.
Definition ALERT_COOLDOWN : Q := 300.
Definition cooldown : Q := ALERT_COOLDOWN.

(** Lines 394-405 (and 409-420, 425-436): the block the source repeats for
    each quantity.  [measured] is compared with the threshold, [reading] is
    the value the message shows. *)
Definition persistence_step (q : quantity) (threshold measured reading now_ : Q)
    (d : debouncer) : debouncer * list alert :=
  let '(count, active, sent) :=
    if Num.geb measured threshold
    then (S (high_count d), is_alert_active d, [])
    else (0%nat, false,
          if is_alert_active d then [RecoveryAlert q reading] else []) in
  if (PERSISTENCE_COUNT <=? count)%nat && negb active
     && Num.gtb (now_ - last_remote_alert d) cooldown
  then ({| high_count := count; is_alert_active := true; last_remote_alert := now_ |},
        sent ++ [RisingAlert q reading])
  else ({| high_count := count; is_alert_active := active;
           last_remote_alert := last_remote_alert d |}, sent).

(** [remote_data] as [get_remote_system_status] returns it when the
    ['error'] key is absent. *)
Record remote_data := { cpu_pct : Q; ram_pct : Q; load1 : Q; cores : Q }.

(** A parsed line of [df -P -k]. *)
Record df_row := { mount_point : string; usage_pct : Z; used : Z; total : Z }.

Record state := {
  cpu : debouncer;
  ram : debouncer;
  load : debouncer;
  last_remote_disk_alert : gmap string Q
}.

Definition initial_state : state :=
  {| cpu := fresh; ram := fresh; load := fresh; last_remote_disk_alert := ∅ |}.

Record cycle := {
  now : Q;
  hardware : option remote_data;
  df_rows : list df_row
}.

(** [last_remote_disk_alert.get(key, 0)]. *)
Definition last_fired (last : gmap string Q) (key : string) : Q :=
  default 0%Q (last !! key).

(** Lines 442-448: the loop over the mounts reported above the threshold. *)
Fixpoint disk_loop (now_ : Q) (remote_alerts : list (string * Z * Z))
    (last : gmap string Q) : gmap string Q * list alert :=
  match remote_alerts with
  | [] => (last, [])
  | (mount, pct, used_) :: rest =>
    let key := ("remote_" +:+ mount)%string in
    let ts := last_fired last key in
    if Num.gtb (now_ - ts) cooldown then
      let '(last', sent) := disk_loop now_ rest (<[key := now_]> last) in
      (last', DiskAlert mount pct used_ :: sent)
    else disk_loop now_ rest last
  end.

Section Thresholds.

Variables CPU_THRESHOLD_PCT RAM_THRESHOLD_PCT LOAD_PER_CORE_THRESHOLD : Q.
Variable DISK_THRESHOLD_PCT : Q.

(** Lines 336-337 of [get_remote_disk_status]: the rows kept for alerting. *)
Definition alert_data (rows : list df_row) : list (string * Z * Z) :=
  map (fun r => (mount_point r, usage_pct r, used r))
      (List.filter (fun r => Num.geb (inject_Z (usage_pct r)) DISK_THRESHOLD_PCT) rows).

(** Section 1 of the loop body (lines 387-448). *)
Definition hardware_section (c : cycle) (st : state) : state * list alert :=
  match hardware c with
  | None => (st, [])
  | Some rd =>
    let '(cpu', a1) :=
      persistence_step CPU CPU_THRESHOLD_PCT (cpu_pct rd) (cpu_pct rd) (now c) (cpu st) in
    let '(ram', a2) :=
      persistence_step RAM RAM_THRESHOLD_PCT (ram_pct rd) (ram_pct rd) (now c) (ram st) in
    let load1_per_core := (load1 rd / cores rd)%Q in
    let '(load', a3) :=
      persistence_step LOAD LOAD_PER_CORE_THRESHOLD load1_per_core (load1 rd) (now c)
        (load st) in
    let '(disk', a4) :=
      disk_loop (now c) (alert_data (df_rows c)) (last_remote_disk_alert st) in
    ({| cpu := cpu'; ram := ram'; load := load'; last_remote_disk_alert := disk' |},
     a1 ++ a2 ++ a3 ++ a4)
  end.

(** The loop over a finite prefix of its iterations; each message is paired
    with the clock reading of the iteration that sent it. *)
Fixpoint monitor_run (cs : list cycle) (st : state) : state * list (Q * alert) :=
  match cs with
  | [] => (st, [])
  | c :: cs' =>
    let '(st1, a1) := hardware_section c st in
    let '(st2, a2) := monitor_run cs' st1 in
    (st2, map (pair (now c)) a1 ++ a2)
  end.

End Thresholds.

(** One debouncer fed a sequence of (clock, reading) samples; the result
    lists what each sample sent. *)
Fixpoint debounce_run (q : quantity) (threshold : Q) (samples : list (Q * Q))
    (d : debouncer) : debouncer * list (list alert) :=
  match samples with
  | [] => (d, [])
  | (now_, x) :: rest =>
    let '(d1, sent) := persistence_step q threshold x x now_ d in
    let '(d2, more) := debounce_run q threshold rest d1 in
    (d2, sent :: more)
  end.

(** The cooldown key of a disk message. *)
Definition disk_key (a : alert) : option string :=
  match a with
  | DiskAlert mount _ _ => Some ("remote_" +:+ mount)%string
  | _ => None
  end.

(** ** Vocabulary of the statements and sample inputs *)

(** A sequence of messages of one debouncer in which rising and recovery
    alerts take turns; [active] tells which one is due first. *)
Fixpoint alternates (q : quantity) (active : bool) (l : list alert) : bool :=
  match l with
  | [] => true
  | a :: l' =>
    if active then is_recovery q a && alternates q false l'
    else is_rising q a && alternates q true l'
  end.

(** The disk messages of a run, each as (clock reading, cooldown key). *)
Definition disk_events (sent : list (Q * alert)) : list (Q * string) :=
  omap (fun ta => pair (fst ta) <$> disk_key (snd ta)) sent.

(** The disk messages one iteration sends at clock [now_]. *)
Definition loop_events (now_ : Q) (sent : list alert) : list (Q * string) :=
  omap (fun a => pair now_ <$> disk_key a) sent.

(** The gate replayed on a sequence of disk messages: each one comes more
    than the cooldown after the time recorded for its key, and records its
    own time. *)
Fixpoint gate_accepts (last : gmap string Q) (ev : list (Q * string)) : Prop :=
  match ev with
  | [] => True
  | (t, k) :: ev' =>
    (cooldown < t - last_fired last k)%Q /\ gate_accepts (<[k := t]> last) ev'
  end.

Fixpoint record_events (last : gmap string Q) (ev : list (Q * string))
    : gmap string Q :=
  match ev with
  | [] => last
  | (t, k) :: ev' => record_events (<[k := t]> last) ev'
  end.

Definition t0 : Q := 1700000000.

Definition cpu_reading (at_ pct : Q) : cycle :=
  {| now := at_;
     hardware := Some {| cpu_pct := pct; ram_pct := 10; load1 := 0; cores := 2 |};
     df_rows := [] |}.

Definition disk_reading (at_ : Q) (pct : Z) : cycle :=
  {| now := at_;
     hardware := Some {| cpu_pct := 10; ram_pct := 10; load1 := 0; cores := 2 |};
     df_rows := [{| mount_point := "/"; usage_pct := pct; used := 900; total := 1000 |}] |}.

End Sentinel.

(** * nodesentinel.py: the LND monitoring task *)

Module Lnd.

Inductive alert :=
  | NewPeerConnected (pk : string)
  | PeerDisconnected (pk : string)
  | ChannelOpened (cp : string)
  | ChannelClosed (cp : string).

(** Lines 509-511 and 527-529: both checks compute the same pair of
    differences of the current and the previous snapshot. *)
Definition diff (previous current : gset string) : gset string * gset string :=
  (current ∖ previous, previous ∖ current).

(** Lines 508-520.  [peers] holds the [pub_key] of each listed peer; the
    [for] loops visit the sets in the order [elements] gives. *)
Definition peers_check (prev_peers : gset string) (peers : list string)
    : gset string * list alert :=
  let cur_peers : gset string := list_to_set peers in
  let new := cur_peers ∖ prev_peers in
  let removed := prev_peers ∖ cur_peers in
  (cur_peers,
   map NewPeerConnected (elements new) ++ map PeerDisconnected (elements removed)).

(** Lines 526-541, with [channels] the [channel_point] of each channel. *)
Definition channels_check (prev_channels : gset string) (channels : list string)
    : gset string * list alert :=
  let cur_ch : gset string := list_to_set channels in
  let newch := cur_ch ∖ prev_channels in
  let closed := prev_channels ∖ cur_ch in
  (cur_ch,
   map ChannelOpened (elements newch) ++ map ChannelClosed (elements closed)).

End Lnd.

(** * Timed runs and cooldown gates *)

(** The three tasks share one shape: a loop body run at successive clock
    readings, and alerts let through only when more than a fixed gap has
    passed since a recorded time. *)

Module Gate.

Section TimedRun.

Context {C S A : Type}.
Variable step : C -> S -> S * list A.
Variable clock : C -> Q.

(** A finite prefix of a [while True] loop; each message is paired with the
    clock reading of the iteration that sent it. *)
Fixpoint timed_run (cs : list C) (st : S) : S * list (Q * A) :=
  match cs with
  | [] => (st, [])
  | c :: cs' =>
    let '(st1, a1) := step c st in
    let '(st2, a2) := timed_run cs' st1 in
    (st2, map (pair (clock c)) a1 ++ a2)
  end.

End TimedRun.

(** The clock readings of the messages of one kind, in the order sent. *)
Definition event_times {A : Type} (kind : A -> bool) (tr : list (Q * A)) : list Q :=
  map fst (List.filter (fun ta => kind (snd ta)) tr).

(** What an iteration at clock [t] may do to a gate whose recorded time is
    [last]: send nothing of the kind, the recorded time kept or moved to [t]
    after the gap; or send one message of the kind after the gap and record
    [t]. *)
Definition gate_step {S A : Type} (kind : A -> bool) (gap : Q) (last : S -> Q)
    (t : Q) (st st1 : S) (sent : list A) : Prop :=
  (List.filter kind sent = [] /\
   (last st1 = last st \/ (last st1 = t /\ (gap < t - last st)%Q))) \/
  (exists a, List.filter kind sent = [a] /\ last st1 = t /\ (gap < t - last st)%Q).

(** Readings each more than [gap] after the one before, the first one more
    than [gap] after [x]. *)
Fixpoint chain (gap x : Q) (ts : list Q) : Prop :=
  match ts with
  | [] => True
  | t :: ts' => (gap < t - x)%Q /\ chain gap t ts'
  end.

Definition pairwise_apart (gap : Q) (ts : list Q) : Prop :=
  forall i j t1 t2, (i < j)%nat ->
    ts !! i = Some t1 -> ts !! j = Some t2 -> (gap < t2 - t1)%Q.

End Gate.

(** * crypto_utils.py: the surveillance task over time *)

Module Market.
Import Crypto.

Definition is_macro_report (a : alert) : bool :=
  match a with MacroReport _ => true | _ => false end.

(** The level a fee message announces. *)
Definition alert_level (a : alert) : option fee_state :=
  match a with
  | FeeHighAlert _ => Some HIGH
  | FeeMediumAlert _ => Some MEDIUM
  | FeeLowAlert _ => Some LOW
  | FeesNormalizedAlert _ => Some NORMAL
  | _ => None
  end.

(** The three levels a sample can be given, from cheap to expensive. *)
Definition severity (s : fee_state) : nat :=
  match s with
  | LOW => 1
  | MEDIUM => 2
  | HIGH => 3
  | _ => 0
  end.

(** [surveillance_task] with the clock reading of each message. *)
Definition surveillance_trace (low med plow phigh : Q) :=
  Gate.timed_run (surveillance_step low med plow phigh) now.

End Market.

(** * crypto_utils.py: the fee history and the contextual analysis *)

Module FeeHistory.

(** [new_fees['time'] = time.time()]: the dict handed in is the one stored,
    and the one [surveillance_task] reads [fastestFee] from afterwards. *)
Definition stamp_fees (new_fees : gmap string Q) (stamp : Q) : gmap string Q :=
  <["time"%string := stamp]> new_fees.

(** [[d for d in FEE_HISTORY if d['time'] > cutoff]]; [None] stands for the
    [KeyError] of an entry without a ['time'] key. *)
Fixpoint keep_since (cutoff : Q) (h : list (gmap string Q))
    : option (list (gmap string Q)) :=
  match h with
  | [] => Some []
  | d :: h' =>
    match d !! "time"%string with
    | None => None
    | Some t =>
      match keep_since cutoff h' with
      | None => None
      | Some rest => Some (if Num.gtb t cutoff then d :: rest else rest)
      end
    end
  end.

(** Lines 26-34; the result is the stamped dict and the new [FEE_HISTORY]. *)
Definition update_fee_history (new_fees : gmap string Q) (stamp prune_clock : Q)
    (FEE_HISTORY : list (gmap string Q))
    : option (gmap string Q * list (gmap string Q)) :=
  let stamped := stamp_fees new_fees stamp in
  let one_hour_ago := (prune_clock - 3600)%Q in
  match keep_since one_hour_ago (FEE_HISTORY ++ [stamped]) with
  | Some h => Some (stamped, h)
  | None => None
  end.

(** Successive calls, each with its sample and its two clock readings. *)
Fixpoint fee_history_run (samples : list (gmap string Q * Q * Q))
    (FEE_HISTORY : list (gmap string Q)) : option (list (gmap string Q)) :=
  match samples with
  | [] => Some FEE_HISTORY
  | (new_fees, stamp, prune_clock) :: rest =>
    match update_fee_history new_fees stamp prune_clock FEE_HISTORY with
    | Some (_, h) => fee_history_run rest h
    | None => None
    end
  end.

(** Every entry carries a time, and one later than [cutoff]. *)
Definition stamped_since (cutoff : Q) (d : gmap string Q) : Prop :=
  exists t, d !! "time"%string = Some t /\ (cutoff < t)%Q.

End FeeHistory.

Module Analysis.

(** What the request of [perform_contextual_analysis] came to: the status
    403, an exception, or an answer with its text (if any) and, for each
    grounding attribution, the title of its web entry (if any). *)
Inductive outcome :=
  | Forbidden
  | RequestFailed (error : string)
  | Answered (text : option string) (attributions : list (option string)).

(** The line feed of the texts. *)
Definition nl : string := String (Ascii.ascii_of_nat 10) EmptyString.

Definition decimal (n : nat) : string := NilZero.string_of_uint (Nat.to_uint n).

(** Line 141: the web attributions, each numbered by its place among all
    attributions. *)
Fixpoint source_lines (i : nat) (attributions : list (option string)) : list string :=
  match attributions with
  | [] => []
  | Some title :: rest =>
    ("[" +:+ decimal (S i) +:+ "] " +:+ title)%string :: source_lines (S i) rest
  | None :: rest => source_lines (S i) rest
  end.

(** Lines 125-157: the text returned and the error returned with it. *)
Definition perform_contextual_analysis (o : outcome) : string * option string :=
  match o with
  | Forbidden =>
    ("🔎 *Contextual Analysis Failed: Invalid API Key (403 Forbidden).* Check GEMINI_API_KEY in .env."%string,
     Some "403 Forbidden"%string)
  | RequestFailed e =>
    ("🔎 *Contextual Analysis Failed: API or Network Error.*"%string,
     Some ("Error: " +:+ e)%string)
  | Answered text attributions =>
    let text := default "Analysis not available."%string text in
    let sources := source_lines 0 attributions in
    let context := ("🧠 *AI Contextual Analysis (Gemini)*:" +:+ nl +:+ text)%string in
    (match sources with
     | [] => context
     | _ :: _ =>
       (context +:+ nl +:+ nl +:+ "Sources Used:" +:+ nl
        +:+ String.concat nl (take 3 sources))%string
     end, None)
  end.

End Analysis.

(** * nodesentinel.py: the three debouncers inside the loop *)

Module Hardware.
Import Sentinel.

(** The variables of one quantity among those of the task. *)
Definition debouncer_of (q : quantity) (st : state) : debouncer :=
  match q with CPU => cpu st | RAM => ram st | LOAD => load st end.

(** The value compared with the threshold and the value shown, per
    quantity (lines 394, 409, 424-425). *)
Definition measured (q : quantity) (rd : remote_data) : Q :=
  match q with
  | CPU => cpu_pct rd
  | RAM => ram_pct rd
  | LOAD => (load1 rd / cores rd)%Q
  end.

Definition reading (q : quantity) (rd : remote_data) : Q :=
  match q with CPU => cpu_pct rd | RAM => ram_pct rd | LOAD => load1 rd end.

Definition threshold_of (cpu_t ram_t load_t : Q) (q : quantity) : Q :=
  match q with CPU => cpu_t | RAM => ram_t | LOAD => load_t end.

(** The samples of a run that ended over the threshold without a break. *)
Definition over (threshold : Q) (s : Q * Q) : Prop := (threshold <= snd s)%Q.

End Hardware.

(** * nodesentinel.py: service status, df output *)

(** [s.replace(c, r)] for a pattern [c] of one character. *)
Fixpoint replace_char (c : Ascii.ascii) (r : string) (s : string) : string :=
  match s with
  | EmptyString => EmptyString
  | String a s' =>
    if Ascii.eqb a c then (r +:+ replace_char c r s')%string
    else String a (replace_char c r s')
  end.

Module Services.

Inductive service := LND | BITCOIN.

Global Instance service_eq_dec : EqDecision service.
Proof. solve_decision. Defined.

(** The SERVICE DOWN and SERVICE UP texts, with the status they show. *)
Inductive alert :=
  | ServiceDown (s : service) (status : string)
  | ServiceUp (s : service) (status : string).

Record state := {
  last_lnd_service_status : string;
  last_btc_service_status : string;
  last_service_alert_ts : Q
}.

Definition initial_state : state :=
  {| last_lnd_service_status := "UNKNOWN";
     last_btc_service_status := "UNKNOWN";
     last_service_alert_ts := 0 |}.

Definition cooldown : Q := 300.

(** An iteration reads the clock and the remote command's output, already
    split on white space; [None] when the command gave an error or an empty
    output. *)
Record cycle := { now : Q; statuses : option (list string) }.

(** Lines 460-469 (and 473-482): one service against its stored status and
    the shared alert time; the result is the new stored status, the new
    alert time and what is sent. *)
Definition service_check (svc : service) (current last_status : string)
    (now_ ts : Q) : string * Q * list alert :=
  if bool_decide (current <> last_status) && Num.gtb (now_ - ts) cooldown then
    if bool_decide (current = "INACTIVE"%string)
       || bool_decide (current = "FAILED"%string)
    then (current, now_, [ServiceDown svc current])
    else if bool_decide (current = "ACTIVE"%string)
            && bool_decide (last_status <> "UNKNOWN"%string)
    then (current, now_, [ServiceUp svc current])
    else (current, ts, [])
  else (last_status, ts, []).

Section Upper.

(** [str.upper], the library function of the source. *)
Variable upper : string -> string.

(** [statuses[i].upper() if len(statuses) > i else "UNKNOWN"]. *)
Definition status_at (i : nat) (l : list string) : string :=
  match l !! i with
  | Some s => upper s
  | None => "UNKNOWN"%string
  end.

(** Section 2 of the loop body (lines 452-482). *)
Definition service_section (c : cycle) (st : state) : state * list alert :=
  match statuses c with
  | None => (st, [])
  | Some l =>
    let '(lnd', ts1, a1) :=
      service_check LND (status_at 0 l) (last_lnd_service_status st) (now c)
        (last_service_alert_ts st) in
    let '(btc', ts2, a2) :=
      service_check BITCOIN (status_at 1 l) (last_btc_service_status st) (now c) ts1 in
    ({| last_lnd_service_status := lnd';
        last_btc_service_status := btc';
        last_service_alert_ts := ts2 |}, a1 ++ a2)
  end.

Definition service_trace := Gate.timed_run service_section now.

End Upper.

Definition any_alert (a : alert) : bool := true.

(** What a message says about the stored statuses before and after. *)
Definition announces (a : alert) (before after : state) : Prop :=
  match a with
  | ServiceDown LND s =>
    last_lnd_service_status after = s /\ last_lnd_service_status before <> s /\
    (s = "INACTIVE"%string \/ s = "FAILED"%string)
  | ServiceDown BITCOIN s =>
    last_btc_service_status after = s /\ last_btc_service_status before <> s /\
    (s = "INACTIVE"%string \/ s = "FAILED"%string)
  | ServiceUp LND s =>
    last_lnd_service_status after = s /\ s = "ACTIVE"%string /\
    last_lnd_service_status before <> "ACTIVE"%string /\
    last_lnd_service_status before <> "UNKNOWN"%string
  | ServiceUp BITCOIN s =>
    last_btc_service_status after = s /\ s = "ACTIVE"%string /\
    last_btc_service_status before <> "ACTIVE"%string /\
    last_btc_service_status before <> "UNKNOWN"%string
  end.

End Services.

Module DiskReport.
Import Sentinel.

(** What [get_remote_disk_status] reports: one of its two error texts, or
    the lines of the mounts it could read. *)
Inductive report :=
  | SshError
  | IncompleteOutput
  | Mounts (rows : list df_row).

Section Parse.

(** [int(s)], the library function of the source; [None] stands for its
    [ValueError]. *)
Variable parse_int : string -> option Z.
Variable DISK_THRESHOLD_PCT : Q.

(** Lines 322-330: a line of the output, split on white space. *)
Definition parse_df_line (parts : list string) : option df_row :=
  if (6 <=? length parts)%nat then
    match parts !! 5%nat, parts !! 4%nat, parts !! 2%nat, parts !! 1%nat with
    | Some mount, Some pct, Some used_k, Some total_k =>
      match parse_int (replace_char "%"%char ""%string pct), parse_int used_k, parse_int total_k with
      | Some p, Some u, Some t =>
        Some {| mount_point := mount; usage_pct := p;
                used := u * 1024; total := t * 1024 |}
      | _, _, _ => None
      end
    | _, _, _, _ => None
    end
  else None.

(** Lines 309-340; [output] is [None] on an SSH error, and otherwise the
    lines of the output, each split on white space. *)
Definition get_remote_disk_status (output : option (list (list string)))
    : report * list (string * Z * Z) :=
  match output with
  | None => (SshError, [])
  | Some lines =>
    if (length lines <? 2)%nat then (IncompleteOutput, [])
    else
      let rows := omap parse_df_line (tail lines) in
      (Mounts rows, alert_data DISK_THRESHOLD_PCT rows)
  end.

End Parse.

End DiskReport.

(** * nodesentinel.py: settled invoices and the alias cache *)

Module Invoices.

(** The attributes the check reads, with the defaults of its [getattr]s:
    [add_index] is the text [str] gives for it. *)
Record invoice := {
  settled : bool;
  r_hash_str : option string;
  add_index : string;
  value : Z
}.

(** [getattr(inv, "r_hash_str", None) or str(getattr(inv, "add_index", ""))]. *)
Definition invoice_key (inv : invoice) : string :=
  match r_hash_str inv with
  | Some h => if bool_decide (h = ""%string) then add_index inv else h
  | None => add_index inv
  end.

(** Lines 548-556: [cur_settled]. *)
Definition settled_set (invoices : list invoice) : gset (string * Z) :=
  list_to_set
    (map (fun inv => (invoice_key inv, value inv))
         (List.filter settled invoices)).

Definition hashes (s : gset (string * Z)) : gset string := set_map fst s.

(** Line 559: the pairs announced. *)
Definition new_settled (prev_settled_invoices cur_settled : gset (string * Z))
    : list (string * Z) :=
  List.filter (fun rv => bool_decide (fst rv ∉ hashes prev_settled_invoices))
    (elements cur_settled).

(** Lines 547-568: the new snapshot and the values of the messages. *)
Definition invoices_check (prev_settled_invoices : gset (string * Z))
    (invoices : list invoice) : gset (string * Z) * list Z :=
  let cur_settled := settled_set invoices in
  (cur_settled, map snd (new_settled prev_settled_invoices cur_settled)).

End Invoices.

Module AliasCache.

(** What [get_node_info] answered: the alias of its [node] (absent when
    there is no node or no alias) and the alias of the answer itself. *)
Record node_info := { node_alias : option string; info_alias : option string }.

(** Truth of an optional text in an [if]. *)
Definition truthy (s : option string) : bool :=
  match s with
  | Some t => negb (bool_decide (t = ""%string))
  | None => false
  end.

(** Lines 154-160; [None] for the answer stands for a failed or missing
    lookup. *)
Definition alias_of (answer : option node_info) : option string :=
  match answer with
  | None => None
  | Some ni =>
    if truthy (node_alias ni) then node_alias ni
    else if truthy (info_alias ni) then info_alias ni
    else None
  end.

(** Lines 132-169, with [_node_alias_cache] passed in and out. *)
Definition get_alias_for_pubkey (client : string -> option node_info)
    (pubkey : option string) (cache : gmap string (option string))
    : option string * gmap string (option string) :=
  if truthy pubkey then
    match pubkey with
    | Some pk =>
      match cache !! pk with
      | Some cached => (cached, cache)
      | None =>
        let alias_str := alias_of (client pk) in
        (alias_str, <[pk := alias_str]> cache)
      end
    | None => (None, cache)
    end
  else (None, cache).

(** No cached alias is the empty text. *)
Definition clean (cache : gmap string (option string)) : Prop :=
  forall pk, cache !! pk <> Some (Some ""%string).

End AliasCache.

(** * nodesentinel.py: texts for the replies *)

Module Html.

(** [escape_html] of [peers_cmd] (lines 776-781): three replacements, the
    ampersand first. *)
Definition escape_html (text : option string) : string :=
  match text with
  | None => ""
  | Some t =>
    replace_char ">" "&gt;" (replace_char "<" "&lt;" (replace_char "&" "&amp;" t))
  end.

(** The escape of one character, and a text escaped character by
    character, for comparison with the three passes above. *)
Definition escape_char (a : Ascii.ascii) : string :=
  if Ascii.eqb a "&" then "&amp;"
  else if Ascii.eqb a "<" then "&lt;"
  else if Ascii.eqb a ">" then "&gt;"
  else String a EmptyString.

Fixpoint escape_chars (t : string) : string :=
  match t with
  | EmptyString => EmptyString
  | String a t' => (escape_char a +:+ escape_chars t')%string
  end.

Fixpoint occurs (c : Ascii.ascii) (s : string) : bool :=
  match s with
  | EmptyString => false
  | String a s' => Ascii.eqb a c || occurs c s'
  end.

End Html.

Module HumanBytes.

(** Lines 173-177: the loop over the units, each round dividing by 1024;
    the result is the number left and the unit reached. *)
Fixpoint scale (units : list string) (n : Q) : Q * string :=
  match units with
  | [] => (n, "PB"%string)
  | u :: us => if Num.ltb n 1024 then (n, u) else scale us (n / 1024)
  end.

(** The integer [f"{x:.0f}"] prints: the nearest one, the even one of the
    two when [x] is halfway. *)
Definition round_half_even (x : Q) : Z :=
  let f := Qfloor x in
  let r := (x - inject_Z f)%Q in
  if Num.ltb r (1 # 2) then f
  else if Num.gtb r (1 # 2) then (f + 1)%Z
  else if Z.even f then f else (f + 1)%Z.

(** [human_bytes]: the text returned is the decimal writing of the first
    component followed by the second. *)
Definition human_bytes (n : Q) : Z * string :=
  let '(m, u) := scale ["B"; "KB"; "MB"; "GB"; "TB"]%string n in
  (round_half_even m, u).

End HumanBytes.

(** * nodesentinel.py: the two restart commands *)

Module Admin.

Inductive target := RestartBitcoin | RestartLnd.

(** The replies of [restartbtc_cmd] and [restartlnd_cmd]. *)
Inductive reply :=
  | AccessDenied
  | Restarting (t : target)
  | RestartFailed (t : target) (error : string)
  | Restarted (t : target).

Definition RESTART_CMD (t : target) : string :=
  match t with
  | RestartBitcoin => "sudo systemctl restart bitcoin"
  | RestartLnd => "sudo systemctl restart lnd"
  end.

(** Lines 667-705.  [run_remote_command] is given as the error it returns
    for a command, if any; the result is the replies sent and the commands
    run over SSH. *)
Definition restart_cmd (t : target) (CHAT_ID effective_chat_id : Z)
    (run_remote_command : string -> option string) : list reply * list string :=
  if bool_decide (effective_chat_id <> CHAT_ID) then ([AccessDenied], [])
  else
    match run_remote_command (RESTART_CMD t) with
    | Some error => ([Restarting t; RestartFailed t error], [RESTART_CMD t])
    | None => ([Restarting t; Restarted t], [RESTART_CMD t])
    end.

End Admin.

(** * Inputs for the worked cases *)

Module Samples.

Definition both_active : Services.state :=
  {| Services.last_lnd_service_status := "ACTIVE";
     Services.last_btc_service_status := "ACTIVE";
     Services.last_service_alert_ts := 0 |}.

Definition both_down (at_ : Q) : Services.cycle :=
  {| Services.now := at_; Services.statuses := Some ["INACTIVE"; "FAILED"]%string |}.

Definition parse_two_digits (s : string) : option Z :=
  if String.eqb s "95" then Some 95%Z
  else if String.eqb s "40" then Some 40%Z
  else if String.eqb s "900" then Some 900%Z
  else if String.eqb s "1000" then Some 1000%Z
  else None.

Definition df_output : list (list string) :=
  [["Filesystem"; "1024-blocks"; "Used"; "Available"; "Capacity"; "Mounted"; "on"];
   ["/dev/root"; "1000"; "900"; "100"; "95%"; "/"];
   ["/dev/sda1"; "1000"; "900"; "100"; "40%"; "/mnt/hdd"];
   ["/dev/sdb1"; "1000"; "n/a"; "100"; "95%"; "/mnt/usb"]]%string.

End Samples.

(** * Properties *)

Module NumFacts.
Import Num.

Lemma leb_true x y : leb x y = true <-> (x <= y)%Q.
Proof. apply Qle_bool_iff. Qed.

Lemma leb_false x y : leb x y = false <-> (y < x)%Q.
Proof.
  unfold leb. split; intros H.
  - apply Qnot_le_lt. intros Hle. apply Qle_bool_iff in Hle. congruence.
  - destruct (Qle_bool x y) eqn:E; [|reflexivity].
    apply Qle_bool_iff in E. lra.
Qed.

Lemma geb_true x y : geb x y = true <-> (y <= x)%Q.
Proof. apply leb_true. Qed.

Lemma geb_false x y : geb x y = false <-> (x < y)%Q.
Proof. apply leb_false. Qed.

Lemma gtb_true x y : gtb x y = true <-> (y < x)%Q.
Proof. unfold gtb. rewrite negb_true_iff. apply leb_false. Qed.

Lemma gtb_false x y : gtb x y = false <-> (x <= y)%Q.
Proof. unfold gtb. rewrite negb_false_iff. apply leb_true. Qed.

Lemma ltb_true x y : ltb x y = true <-> (x < y)%Q.
Proof. unfold ltb. rewrite negb_true_iff. apply leb_false. Qed.

Lemma ltb_false x y : ltb x y = false <-> (y <= x)%Q.
Proof. unfold ltb. rewrite negb_false_iff. apply leb_true. Qed.

Lemma eqb_true x y : eqb x y = true <-> (x == y)%Q.
Proof. apply Qeq_bool_iff. Qed.

Lemma neqb_true x y : neqb x y = true <-> ~ (x == y)%Q.
Proof.
  unfold neqb. rewrite negb_true_iff. split; intros H.
  - intros E. apply Qeq_bool_iff in E. congruence.
  - destruct (Qeq_bool x y) eqn:E; [|reflexivity].
    apply Qeq_bool_iff in E. contradiction.
Qed.

Lemma neqb_false x y : neqb x y = false <-> (x == y)%Q.
Proof. unfold neqb. rewrite negb_false_iff. apply Qeq_bool_iff. Qed.


End NumFacts.

(** Turns the boolean tests of the source found in the context and in the
    goal into order facts on [Q]. *)
Ltac num_prop :=
  repeat match goal with
  | H : Num.gtb _ _ = true |- _ => apply NumFacts.gtb_true in H
  | H : Num.gtb _ _ = false |- _ => apply NumFacts.gtb_false in H
  | H : Num.ltb _ _ = true |- _ => apply NumFacts.ltb_true in H
  | H : Num.ltb _ _ = false |- _ => apply NumFacts.ltb_false in H
  | H : Num.leb _ _ = true |- _ => apply NumFacts.leb_true in H
  | H : Num.leb _ _ = false |- _ => apply NumFacts.leb_false in H
  | H : Num.geb _ _ = true |- _ => apply NumFacts.geb_true in H
  | H : Num.geb _ _ = false |- _ => apply NumFacts.geb_false in H
  | H : Num.neqb _ _ = true |- _ => apply NumFacts.neqb_true in H
  | H : Num.neqb _ _ = false |- _ => apply NumFacts.neqb_false in H
  | H : Num.eqb _ _ = true |- _ => apply NumFacts.eqb_true in H
  end.


(** ** The surveillance task *)

Module CryptoFacts.
Import Crypto.

(** Reduces the record updates and projections of the state, and nothing of
    the arithmetic. *)
Ltac state_simpl :=
  cbn [fst snd with_history with_reference with_volatility_alert with_macro_ts
       current_fee_state last_fee_alert_ts last_price_volatility_alert_ts
       LAST_VOLATILITY_REFERENCE_USD LAST_MACRO_REPORT_TS PRICE_HISTORY].

Section Thresholds.

Variables FEE_LOW_THRESHOLD FEE_MED_THRESHOLD : Q.
Variables PRICE_CHANGE_THRESHOLD_LOW PRICE_CHANGE_THRESHOLD_HIGH : Q.

Local Abbreviation classify := (classify_fee FEE_LOW_THRESHOLD FEE_MED_THRESHOLD).
Local Abbreviation fee_sec := (fee_section FEE_LOW_THRESHOLD FEE_MED_THRESHOLD).
Local Abbreviation price_sec :=
  (price_section PRICE_CHANGE_THRESHOLD_LOW PRICE_CHANGE_THRESHOLD_HIGH).
Local Abbreviation vol_eval :=
  (volatility_eval PRICE_CHANGE_THRESHOLD_LOW PRICE_CHANGE_THRESHOLD_HIGH).
Local Abbreviation step :=
  (surveillance_step FEE_LOW_THRESHOLD FEE_MED_THRESHOLD
     PRICE_CHANGE_THRESHOLD_LOW PRICE_CHANGE_THRESHOLD_HIGH).
Local Abbreviation run :=
  (surveillance_run FEE_LOW_THRESHOLD FEE_MED_THRESHOLD
     PRICE_CHANGE_THRESHOLD_LOW PRICE_CHANGE_THRESHOLD_HIGH).

(** *** Shape of what each section sends *)

Lemma volatility_message_kind change pct price :
  is_volatility_alert
    (volatility_message PRICE_CHANGE_THRESHOLD_HIGH change pct price) = true.
Proof. unfold volatility_message. destruct (Num.gtb change 0); reflexivity. Qed.

Lemma volatility_eval_sent c cur old st :
  snd (vol_eval c cur old st) = [] \/
  exists a, is_volatility_alert a = true /\
    snd (vol_eval c cur old st) = [a; ContextFollowUp (analysis_context c)].
Proof.
  unfold volatility_eval.
  match goal with |- context [if ?b then _ else _] => destruct b end; simpl.
  - right. eexists. split; [apply volatility_message_kind | reflexivity].
  - left. reflexivity.
Qed.

Lemma price_section_sent c st :
  snd (price_sec c st) = [] \/
  exists a, is_volatility_alert a = true /\
    snd (price_sec c st) = [a; ContextFollowUp (analysis_context c)].
Proof.
  unfold price_section.
  destruct (get_price_data (price_response c)) as [prices|]; [|by left].
  destruct (old_price_lookup _ _) as [old|]; [|by left].
  destruct (_ && _); [|by left].
  apply volatility_eval_sent.
Qed.

Lemma macro_section_sent c st :
  snd (macro_section c st) = [] \/
  snd (macro_section c st) = [MacroReport (macro_context c)].
Proof.
  unfold macro_section.
  destruct (_ && _); [|by left]. simpl.
  destruct (_ && _); [by right | by left].
Qed.

Lemma price_section_no_fee_alert c st :
  List.filter is_fee_alert (snd (price_sec c st)) = [].
Proof.
  destruct (price_section_sent c st) as [-> | (a & Ha & ->)]; [done|].
  destruct a; try discriminate; reflexivity.
Qed.

Lemma macro_section_no_fee_alert c st :
  List.filter is_fee_alert (snd (macro_section c st)) = [].
Proof. destruct (macro_section_sent c st) as [-> | ->]; reflexivity. Qed.

Lemma step_sent c st :
  snd (step c st) =
    snd (fee_sec c st)
    ++ snd (price_sec c (fst (fee_sec c st)))
    ++ snd (macro_section c (fst (price_sec c (fst (fee_sec c st))))).
Proof.
  unfold surveillance_step.
  destruct (fee_sec c st) as [st1 a1]; simpl.
  destruct (price_sec c st1) as [st2 a2]; simpl.
  destruct (macro_section c st2) as [st3 a3]; reflexivity.
Qed.

Lemma step_state c st :
  fst (step c st) = fst (macro_section c (fst (price_sec c (fst (fee_sec c st))))).
Proof.
  unfold surveillance_step.
  destruct (fee_sec c st) as [st1 a1]; simpl.
  destruct (price_sec c st1) as [st2 a2]; simpl.
  destruct (macro_section c st2) as [st3 a3]; reflexivity.
Qed.

(** *** The fee level machine *)

Lemma fee_section_init c st :
  current_fee_state st = INIT ->
  snd (fee_sec c st) = [].
Proof.
  intros Hinit. unfold fee_section.
  destruct (fees c) as [f|]; [|done].
  destruct (decide (f = ∅)); [done|].
  rewrite Hinit. reflexivity.
Qed.

(** C1.  On an evaluation that starts in the state INIT the fee machine
    sends no fee message, whatever the sampled fee: the fee section sends
    nothing at all, the whole iteration contains no fee state-change
    message, and after a successful fetch the stored level is the level
    computed from the sample. *)
Theorem fee_first_evaluation_silent (c : cycle) (st : state) :
  current_fee_state st = INIT ->
  snd (fee_sec c st) = [] /\
  List.filter is_fee_alert (snd (step c st)) = [] /\
  (forall f, fees c = Some f -> f <> ∅ ->
     current_fee_state (fst (fee_sec c st))
     = classify (default 0%Q (f !! "fastestFee"%string))).
Proof.
  intros Hinit. split; [by apply fee_section_init|]. split.
  - rewrite step_sent, !List.filter_app, fee_section_init by done.
    by rewrite price_section_no_fee_alert, macro_section_no_fee_alert.
  - intros f Hf Hne. unfold fee_section. rewrite Hf.
    destruct (decide (f = ∅)); [done|].
    rewrite Hinit. reflexivity.
Qed.

Lemma classify_cases fee :
  classify fee = HIGH \/ classify fee = LOW \/ classify fee = MEDIUM.
Proof.
  unfold classify_fee.
  destruct (Num.gtb fee FEE_MED_THRESHOLD) eqn:Hmed; [by left|].
  destruct (Num.leb fee FEE_LOW_THRESHOLD) eqn:Hlow; [by right; left|].
  assert (Num.gtb fee FEE_LOW_THRESHOLD = true) as ->.
  { apply NumFacts.gtb_true. by apply NumFacts.leb_false. }
  assert (Num.leb fee FEE_MED_THRESHOLD = true) as ->.
  { apply NumFacts.leb_true. by apply NumFacts.gtb_false. }
  by right; right.
Qed.

Lemma fee_message_not_normalized cur fee val :
  List.filter is_fees_normalized (fee_message cur (classify fee) val) = [].
Proof. by destruct (classify_cases fee) as [-> | [-> | ->]]. Qed.

Lemma fee_section_not_normalized c st :
  List.filter is_fees_normalized (snd (fee_sec c st)) = [].
Proof.
  unfold fee_section.
  destruct (fees c) as [f|]; [|done].
  destruct (decide (f = ∅)); [done|].
  destruct (_ && _); [apply fee_message_not_normalized|].
  by destruct (bool_decide _).
Qed.

Lemma step_not_normalized c st :
  List.filter is_fees_normalized (snd (step c st)) = [].
Proof.
  rewrite step_sent, !List.filter_app, fee_section_not_normalized.
  destruct (price_section_sent c (fst (fee_sec c st))) as [-> | (a & Ha & ->)];
    destruct (macro_section_sent c (fst (price_sec c (fst (fee_sec c st)))))
      as [-> | ->]; try done; by destruct a.
Qed.

(** C2.  Whatever the sample and the thresholds, the computed level is
    HIGH, LOW or MEDIUM, never the default NORMAL; hence no iteration of the
    loop, from any state, sends the FEES NORMALIZED message. *)
Theorem fee_branches_exhaustive :
  (forall fee, classify fee = HIGH \/ classify fee = LOW \/ classify fee = MEDIUM) /\
  (forall cs st, List.filter is_fees_normalized (snd (run cs st)) = []).
Proof.
  split; [apply classify_cases|].
  induction cs as [|c cs IH]; intros st; [done|].
  simpl. pose proof (step_not_normalized c st) as Hstep.
  destruct (step c st) as [st1 a1]. specialize (IH st1).
  destruct (run cs st1) as [st2 a2]. simpl in *.
  by rewrite List.filter_app, Hstep, IH.
Qed.

(** C4, as the code has it.  From an initialized state, when the computed
    level differs from the stored one, the new level is stored on that
    evaluation if more than [ALERT_COOLDOWN] seconds have passed since the
    last stored transition (whose time then becomes [now], and the message of
    the new level is sent); within the cooldown the evaluation changes
    nothing and sends nothing. *)
Theorem fee_transition_persisted_after_cooldown (c : cycle) (st : state)
    (f : gmap string Q) :
  current_fee_state st <> INIT ->
  fees c = Some f -> f <> ∅ ->
  classify (default 0%Q (f !! "fastestFee"%string)) <> current_fee_state st ->
  ((ALERT_COOLDOWN < now c - last_fee_alert_ts st)%Q ->
     current_fee_state (fst (fee_sec c st))
       = classify (default 0%Q (f !! "fastestFee"%string)) /\
     last_fee_alert_ts (fst (fee_sec c st)) = now c /\
     snd (fee_sec c st)
       = fee_message (current_fee_state st)
           (classify (default 0%Q (f !! "fastestFee"%string)))
           (default 0%Q (f !! "fastestFee"%string))) /\
  ((now c - last_fee_alert_ts st <= ALERT_COOLDOWN)%Q ->
     fee_sec c st = (st, [])).
Proof.
  intros Hinit Hf Hne Hdiff. unfold fee_section. rewrite Hf.
  destruct (decide (f = ∅)); [done|].
  rewrite !bool_decide_eq_true_2 by done. simpl.
  split; intros Ht.
  - apply NumFacts.gtb_true in Ht. rewrite Ht. done.
  - apply NumFacts.gtb_false in Ht. rewrite Ht.
    by rewrite bool_decide_eq_false_2.
Qed.

(** *** Nothing but fee levels before the first fee sample *)

Lemma price_section_fee_state c st :
  current_fee_state (fst (price_sec c st)) = current_fee_state st.
Proof.
  unfold price_section.
  destruct (get_price_data _) as [prices|]; [|done].
  destruct (old_price_lookup _ _) as [old|]; [|done].
  destruct (_ && _); [|done].
  unfold volatility_eval. by destruct (_ && _).
Qed.

Lemma price_section_init c st :
  current_fee_state st = INIT -> snd (price_sec c st) = [].
Proof.
  intros Hinit. unfold price_section.
  destruct (get_price_data _) as [prices|]; [|done].
  destruct (old_price_lookup _ _) as [old|]; [|done].
  destruct (_ && _); [|done].
  unfold volatility_eval. simpl. rewrite Hinit. done.
Qed.

Lemma macro_section_init c st :
  current_fee_state st = INIT -> macro_section c st = (st, []).
Proof. intros Hinit. unfold macro_section. by rewrite Hinit. Qed.

Lemma fee_section_failed c st :
  fee_fetch_failed c -> fee_sec c st = (st, []).
Proof. intros [Hf | Hf]; unfold fee_section; by rewrite Hf. Qed.

Lemma step_uninitialized c st :
  current_fee_state st = INIT -> fee_fetch_failed c ->
  current_fee_state (fst (step c st)) = INIT /\ snd (step c st) = [].
Proof.
  intros Hinit Hfail.
  rewrite step_state, step_sent, fee_section_failed by done. simpl.
  rewrite price_section_init by done.
  rewrite macro_section_init by by rewrite price_section_fee_state.
  simpl. by rewrite price_section_fee_state.
Qed.

(** C10.  In the state INIT the price section sends no volatility alert
    and the macro section sends no report, for every history and every
    clock reading; and over any number of iterations whose fee fetch fails
    the state stays INIT and nothing at all is sent. *)
Theorem uninitialized_suppresses_volatility_and_macro :
  (forall c st, current_fee_state st = INIT ->
     snd (price_sec c st) = [] /\ snd (macro_section c st) = []) /\
  (forall cs st, current_fee_state st = INIT -> Forall fee_fetch_failed cs ->
     current_fee_state (fst (run cs st)) = INIT /\ snd (run cs st) = []).
Proof.
  split.
  - intros c st Hinit. split; [by apply price_section_init|].
    by rewrite macro_section_init.
  - induction cs as [|c cs IH]; intros st Hinit Hall; [done|].
    inversion Hall as [|? ? Hc Hcs]; subst.
    destruct (step_uninitialized c st Hinit Hc) as [Hst Hsent].
    simpl. destruct (step c st) as [st1 a1]. simpl in *.
    destruct (IH st1 Hst Hcs) as [Hst' Hsent'].
    destruct (run cs st1) as [st2 a2]. simpl in *. by subst.
Qed.

(** *** The price lookup *)

Lemma find_none_all {A} (p : A -> bool) (l : list A) :
  Forall (fun x => p x = false) l -> List.find p l = None.
Proof. induction 1 as [|x l Hx _ IH]; simpl; [done|]. by rewrite Hx. Qed.

(** X24.  On a history in time order the lookup returns the head, the
    oldest entry kept, when that one is older than 120 minutes, and nothing
    otherwise. *)
Lemma old_price_lookup_chronological now_ h :
  chronological h ->
  old_price_lookup now_ h =
    match h with
    | [] => None
    | e :: _ => if Num.ltb (time e) (now_ - 120 * 60) then Some e else None
    end.
Proof.
  intros Hs. destruct h as [|e h]; [done|].
  unfold old_price_lookup. simpl.
  destruct (Num.ltb (time e) _) eqn:He; [done|].
  apply find_none_all. apply StronglySorted_inv in Hs as [_ Hall].
  eapply Forall_impl; [exact Hall|]. intros d Hd. simpl in Hd.
  apply NumFacts.ltb_false. apply NumFacts.ltb_false in He. lra.
Qed.

(** Without an entry older than the window the price section evaluates
    nothing: no message, reference and alert time as they were. *)
Lemma no_old_sample_no_evaluation c st prices :
  get_price_data (price_response c) = Some prices ->
  old_price_lookup (now c)
    (update_price_history prices (price_stamp c) (price_prune_clock c)
       (PRICE_HISTORY st)) = None ->
  snd (price_sec c st) = [] /\
  LAST_VOLATILITY_REFERENCE_USD (fst (price_sec c st))
    = LAST_VOLATILITY_REFERENCE_USD st /\
  last_price_volatility_alert_ts (fst (price_sec c st))
    = last_price_volatility_alert_ts st.
Proof. intros Hp Hold. unfold price_section. rewrite Hp. simpl. by rewrite Hold. Qed.

(** *** The volatility reference *)

Lemma price_section_evaluates c st cur old :
  evaluates c st cur old ->
  exists h, price_sec c st = vol_eval c cur old (with_history st h).
Proof.
  intros (e & d & Hp & Hold & Hd & Hcur & Hpos).
  eexists. unfold price_section. rewrite Hp. simpl. rewrite Hold, Hd.
  apply NumFacts.gtb_true in Hcur, Hpos. by rewrite Hcur, Hpos.
Qed.

Lemma reset_check_zero cur ref :
  (ref == 0)%Q -> reset_check PRICE_CHANGE_THRESHOLD_LOW cur ref = ref.
Proof.
  intros H. unfold reset_check.
  apply NumFacts.neqb_false in H. by rewrite H.
Qed.

Lemma reset_check_far cur ref :
  (PRICE_CHANGE_THRESHOLD_LOW / 2 <= Qabs (cur - ref))%Q ->
  reset_check PRICE_CHANGE_THRESHOLD_LOW cur ref = ref.
Proof.
  intros H. unfold reset_check.
  apply NumFacts.ltb_false in H. rewrite H. by rewrite andb_false_r.
Qed.

Lemma reset_check_near cur ref :
  ~ (ref == 0)%Q ->
  (Qabs (cur - ref) < PRICE_CHANGE_THRESHOLD_LOW / 2)%Q ->
  reset_check PRICE_CHANGE_THRESHOLD_LOW cur ref = 0%Q.
Proof.
  intros Hr H. unfold reset_check.
  apply NumFacts.neqb_true in Hr. apply NumFacts.ltb_true in H.
  by rewrite Hr, H.
Qed.

(** C6, as the code has it.  When the price section evaluates:
    (1) with the reference at 0, a change of at least the low threshold
    sends exactly one volatility alert (with its follow-up) and sets the
    reference to the current price, provided the fee state is initialized
    and more than [PRICE_VOLATILITY_COOLDOWN] has passed since the last
    volatility alert;
    (2) with a non-zero reference from which the price is at least half the
    low threshold away, nothing is sent and the reference is kept;
    (3) with a non-zero reference and the price within half the low
    threshold of it, the evaluation goes on as from the reference 0, and the
    reference is 0 afterwards unless an alert is sent at once. *)
Theorem volatility_single_shot (c : cycle) (st : state) (cur old : Q) :
  evaluates c st cur old ->
  ((LAST_VOLATILITY_REFERENCE_USD st == 0)%Q ->
   (PRICE_CHANGE_THRESHOLD_LOW <= Qabs (cur - old))%Q ->
   current_fee_state st <> INIT ->
   (PRICE_VOLATILITY_COOLDOWN < now c - last_price_volatility_alert_ts st)%Q ->
   snd (price_sec c st)
     = [volatility_message PRICE_CHANGE_THRESHOLD_HIGH (cur - old)
          ((cur - old) / old * 100) cur;
        ContextFollowUp (analysis_context c)] /\
   List.length (List.filter is_volatility_alert (snd (price_sec c st))) = 1%nat /\
   LAST_VOLATILITY_REFERENCE_USD (fst (price_sec c st)) = cur /\
   last_price_volatility_alert_ts (fst (price_sec c st)) = now c) /\
  (~ (LAST_VOLATILITY_REFERENCE_USD st == 0)%Q ->
   (PRICE_CHANGE_THRESHOLD_LOW / 2 <= Qabs (cur - LAST_VOLATILITY_REFERENCE_USD st))%Q ->
   snd (price_sec c st) = [] /\
   LAST_VOLATILITY_REFERENCE_USD (fst (price_sec c st))
     = LAST_VOLATILITY_REFERENCE_USD st) /\
  (~ (LAST_VOLATILITY_REFERENCE_USD st == 0)%Q ->
   (Qabs (cur - LAST_VOLATILITY_REFERENCE_USD st) < PRICE_CHANGE_THRESHOLD_LOW / 2)%Q ->
   price_sec c st = price_sec c (with_reference st 0) /\
   (snd (price_sec c st) = [] ->
    LAST_VOLATILITY_REFERENCE_USD (fst (price_sec c st)) = 0%Q)).
Proof.
  intros Hev. pose proof Hev as (e & d & Hp & Hold & Hd & Hcur & Hpos).
  destruct (price_section_evaluates c st cur old Hev) as [h Hsec].
  split; [|split].
  - intros Hz Hs Hfee Ht.
    assert (snd (price_sec c st)
      = [volatility_message PRICE_CHANGE_THRESHOLD_HIGH (cur - old)
           ((cur - old) / old * 100) cur;
         ContextFollowUp (analysis_context c)] /\
      LAST_VOLATILITY_REFERENCE_USD (fst (price_sec c st)) = cur /\
      last_price_volatility_alert_ts (fst (price_sec c st)) = now c)
      as (Hsent & Href & Hts).
    { rewrite Hsec. unfold volatility_eval. state_simpl.
      rewrite reset_check_zero by done.
      rewrite bool_decide_eq_true_2 by done.
      apply NumFacts.geb_true in Hs. apply NumFacts.gtb_true in Ht.
      apply NumFacts.eqb_true in Hz. rewrite Hs, Ht, Hz. done. }
    repeat split; try done.
    rewrite Hsent. simpl. by rewrite volatility_message_kind.
  - intros Hz Hfar.
    rewrite Hsec. unfold volatility_eval. state_simpl.
    rewrite reset_check_far by done.
    apply NumFacts.neqb_true in Hz. unfold Num.neqb in Hz.
    apply negb_true_iff in Hz. unfold Num.eqb. rewrite Hz.
    by rewrite !andb_false_r.
  - intros Hz Hnear. split.
    + unfold price_section. rewrite Hp. state_simpl. rewrite Hold, Hd.
      apply NumFacts.gtb_true in Hcur, Hpos. rewrite Hcur, Hpos.
      unfold volatility_eval. state_simpl.
      rewrite reset_check_near by done.
      rewrite (reset_check_zero cur 0) by reflexivity.
      cbn [andb]. by destruct (_ && _).
    + rewrite Hsec. unfold volatility_eval. state_simpl.
      rewrite reset_check_near by done.
      by destruct (_ && _).
Qed.

End Thresholds.

Lemma fee_first_evaluation_silent_witness :
  current_fee_state initial_state = INIT /\
  snd (fee_section 5 10 (fee_cycle t0 12) initial_state) = [] /\
  current_fee_state (fst (fee_section 5 10 (fee_cycle t0 12) initial_state)) = HIGH.
Proof.
  split; [reflexivity|].
  destruct (fee_first_evaluation_silent 5 10 1000 3000 (fee_cycle t0 12) initial_state)
    as (Hsent & _ & Hlevel); [reflexivity|].
  split; [exact Hsent|].
  rewrite (Hlevel {[ "fastestFee"%string := 12%Q ]}); [reflexivity..|].
  vm_compute. discriminate.
Defined.

Lemma fee_transition_persisted_after_cooldown_witness :
  (current_fee_state
     (fst (fee_section 5 10 (fee_cycle (t0 + 400) 12) (running LOW t0 0 0 t0 [])))
     = HIGH /\
   snd (fee_section 5 10 (fee_cycle (t0 + 400) 12) (running LOW t0 0 0 t0 []))
     = [FeeHighAlert 12]) /\
  fee_section 5 10 (fee_cycle (t0 + 300) 12) (running LOW t0 0 0 t0 [])
    = (running LOW t0 0 0 t0 [], []).
Proof.
  split.
  - destruct (fee_transition_persisted_after_cooldown 5 10
                (fee_cycle (t0 + 400) 12) (running LOW t0 0 0 t0 [])
                {[ "fastestFee"%string := 12%Q ]}) as [Hpersist _].
    + discriminate.
    + reflexivity.
    + vm_compute. discriminate.
    + vm_compute. discriminate.
    + destruct Hpersist as (Hlevel & _ & Hsent); [reflexivity|].
      split; [exact Hlevel | exact Hsent].
  - destruct (fee_transition_persisted_after_cooldown 5 10
                (fee_cycle (t0 + 300) 12) (running LOW t0 0 0 t0 [])
                {[ "fastestFee"%string := 12%Q ]}) as [_ Hwait].
    + discriminate.
    + reflexivity.
    + vm_compute. discriminate.
    + vm_compute. discriminate.
    + apply Hwait. vm_compute. discriminate.
Defined.

(** C4, as stated, fails within the cooldown: the level stored at [t0] is
    LOW, the sample 12 read 200 seconds later computes HIGH, and the stored
    level is still LOW after the evaluation. *)
Lemma fee_transition_dropped_within_cooldown :
  current_fee_state (running LOW t0 0 0 t0 []) = LOW /\
  classify_fee 5 10 12 = HIGH /\
  fee_section 5 10 (fee_cycle (t0 + 200) 12) (running LOW t0 0 0 t0 [])
    = (running LOW t0 0 0 t0 [], []).
Proof. repeat split. Qed.

Lemma uninitialized_suppresses_volatility_and_macro_witness :
  current_fee_state initial_state = INIT /\
  Forall fee_fetch_failed [price_cycle t0 60000; price_cycle (t0 + 7500) 61500] /\
  snd (surveillance_run 5 10 1000 3000
         [price_cycle t0 60000; price_cycle (t0 + 7500) 61500] initial_state) = [] /\
  snd (price_section 1000 3000 (price_cycle (t0 + 7500) 61500)
         (running INIT 0 0 0 0 [entry 60000 t0])) = [] /\
  snd (macro_section (price_cycle (t0 + 7500) 61500)
         (running INIT 0 0 0 0 [entry 60000 t0])) = [].
Proof.
  assert (Forall fee_fetch_failed [price_cycle t0 60000; price_cycle (t0 + 7500) 61500])
    as Hfail by (repeat constructor; by left).
  split; [reflexivity|]. split; [exact Hfail|].
  destruct (uninitialized_suppresses_volatility_and_macro 5 10 1000 3000)
    as [Hstep Hrun].
  split; [exact (proj2 (Hrun _ initial_state eq_refl Hfail))|].
  exact (Hstep (price_cycle (t0 + 7500) 61500)
           (running INIT 0 0 0 0 [entry 60000 t0]) eq_refl).
Defined.

(** C3 at a concrete history.  With samples taken at [t0], [t0 + 2700] and
    [t0 + 5400] and the clock at [t0 + 10000], two samples are older than
    120 minutes.  The lookup of the code returns the one of [t0], the
    oldest; the most recent of them is the one of [t0 + 2700].  The price
    61600 is then reported as a rise of 1600, where the change against the
    most recent older sample is 100, below the low threshold 1000. *)
Theorem old_price_lookup_returns_oldest :
  old_price_lookup (t0 + 10000) three_samples = Some (entry 60000 t0) /\
  most_recent_older (t0 + 10000) three_samples = Some (entry 61500 (t0 + 2700)) /\
  snd (price_section 1000 3000 (price_cycle (t0 + 10000) 61600)
         (running LOW 0 0 0 t0 three_samples))
    = [PriceRiseAlert SIGNIFICANT 1600 (1600 / 60000 * 100) 61600;
       ContextFollowUp "analysis"] /\
  Num.geb (Qabs (61600 - 61500)) 1000 = false.
Proof. vm_compute. repeat split. Qed.

Lemma volatility_single_shot_witness :
  (evaluates (price_cycle (t0 + 10000) 61500)
     (running LOW 0 0 0 t0 [entry 60000 t0]) 61500 60000 /\
   List.length (List.filter is_volatility_alert
     (snd (price_section 1000 3000 (price_cycle (t0 + 10000) 61500)
             (running LOW 0 0 0 t0 [entry 60000 t0])))) = 1%nat /\
   LAST_VOLATILITY_REFERENCE_USD
     (fst (price_section 1000 3000 (price_cycle (t0 + 10000) 61500)
             (running LOW 0 0 0 t0 [entry 60000 t0]))) = 61500%Q) /\
  (evaluates (price_cycle (t0 + 10000) 62200)
     (running LOW 0 t0 61500 t0 [entry 60000 t0]) 62200 60000 /\
   snd (price_section 1000 3000 (price_cycle (t0 + 10000) 62200)
          (running LOW 0 t0 61500 t0 [entry 60000 t0])) = []) /\
  (evaluates (price_cycle (t0 + 10000) 61600)
     (running LOW 0 t0 61500 t0 [entry 60000 t0]) 61600 60000 /\
   LAST_VOLATILITY_REFERENCE_USD
     (fst (price_section 1000 3000 (price_cycle (t0 + 10000) 61600)
             (running LOW 0 t0 61500 t0 [entry 60000 t0]))) = 0%Q).
Proof.
  assert (evaluates (price_cycle (t0 + 10000) 61500)
            (running LOW 0 0 0 t0 [entry 60000 t0]) 61500 60000) as Hev1.
  { exists 61500%Q, (entry 60000 t0). repeat split. }
  assert (evaluates (price_cycle (t0 + 10000) 62200)
            (running LOW 0 t0 61500 t0 [entry 60000 t0]) 62200 60000) as Hev2.
  { exists 62200%Q, (entry 60000 t0). repeat split. }
  assert (evaluates (price_cycle (t0 + 10000) 61600)
            (running LOW 0 t0 61500 t0 [entry 60000 t0]) 61600 60000) as Hev3.
  { exists 61600%Q, (entry 60000 t0). repeat split. }
  split; [|split].
  - split; [exact Hev1|].
    destruct (volatility_single_shot 1000 3000 _ _ _ _ Hev1) as [Hfire _].
    destruct Hfire as (_ & Hone & Href & _).
    + reflexivity.
    + vm_compute. discriminate.
    + discriminate.
    + reflexivity.
    + split; [exact Hone | exact Href].
  - split; [exact Hev2|].
    destruct (volatility_single_shot 1000 3000 _ _ _ _ Hev2) as (_ & Hfrozen & _).
    destruct Hfrozen as [Hsent _].
    + vm_compute. discriminate.
    + vm_compute. discriminate.
    + exact Hsent.
  - split; [exact Hev3|].
    destruct (volatility_single_shot 1000 3000 _ _ _ _ Hev3) as (_ & _ & Hreset).
    destruct Hreset as [_ Hzero].
    + vm_compute. discriminate.
    + reflexivity.
    + apply Hzero. reflexivity.
Defined.

(** C6, as stated, fails inside the volatility cooldown.  From an
    initialized state with reference 0, the rise to 61500 at [t0 + 7500]
    alerts and sets the reference; 300 seconds later the price 61600 is
    within 500 of it and the reference goes back to 0; 300 seconds later
    again the reference is 0, the change against the old sample is 1700, at
    least the low threshold 1000, and nothing is sent. *)
Lemma qualifying_change_silent_within_cooldown :
  let st0 := running LOW 0 0 0 t0 [entry 60000 t0] in
  let st2 :=
    fst (surveillance_run 5 10 1000 3000
           [price_cycle (t0 + 7500) 61500; price_cycle (t0 + 7800) 61600] st0) in
  List.length (List.filter is_volatility_alert
    (snd (surveillance_run 5 10 1000 3000
            [price_cycle (t0 + 7500) 61500; price_cycle (t0 + 7800) 61600] st0)))
    = 1%nat /\
  LAST_VOLATILITY_REFERENCE_USD st2 = 0%Q /\
  evaluates (price_cycle (t0 + 8100) 61700) st2 61700 60000 /\
  Num.geb (Qabs (61700 - 60000)) 1000 = true /\
  price_section 1000 3000 (price_cycle (t0 + 8100) 61700) st2
    = (with_history st2
         (update_price_history (61700, 61700)%Q (t0 + 8100) (t0 + 8100)
            (PRICE_HISTORY st2)), []).
Proof.
  cbv zeta. split; [by vm_compute|].
  split; [by vm_compute|]. split; [|split; by vm_compute].
  exists 61700%Q, (entry 60000 t0). repeat split.
Qed.

End CryptoFacts.

(** ** The remote monitoring task *)

Module SentinelFacts.
Import Sentinel.

Section Debouncer.

Variable q : quantity.
Variable threshold : Q.

Local Abbreviation pstep := (persistence_step q threshold).

(** The two outcomes of the first [if] of the block. *)
Lemma persistence_step_over x r now_ d :
  (threshold <= x)%Q ->
  pstep x r now_ d =
    if (PERSISTENCE_COUNT <=? S (high_count d))%nat && negb (is_alert_active d)
       && Num.gtb (now_ - last_remote_alert d) cooldown
    then ({| high_count := S (high_count d); is_alert_active := true;
             last_remote_alert := now_ |}, [RisingAlert q r])
    else ({| high_count := S (high_count d); is_alert_active := is_alert_active d;
             last_remote_alert := last_remote_alert d |}, []).
Proof.
  intros Hx. unfold persistence_step.
  apply NumFacts.geb_true in Hx. by rewrite Hx.
Qed.

Lemma persistence_step_under x r now_ d :
  (x < threshold)%Q ->
  pstep x r now_ d =
    ({| high_count := 0; is_alert_active := false;
        last_remote_alert := last_remote_alert d |},
     if is_alert_active d then [RecoveryAlert q r] else []).
Proof.
  intros Hx. unfold persistence_step.
  apply NumFacts.geb_false in Hx. by rewrite Hx.
Qed.

Lemma over_or_under x : (threshold <= x)%Q \/ (x < threshold)%Q.
Proof. destruct (Qlt_le_dec x threshold); [by right | by left]. Qed.

Lemma rising_sent_iff x r now_ d :
  RisingAlert q r ∈ snd (pstep x r now_ d) <->
  (threshold <= x)%Q /\ (PERSISTENCE_COUNT <= S (high_count d))%nat /\
  is_alert_active d = false /\ (cooldown < now_ - last_remote_alert d)%Q.
Proof.
  destruct (over_or_under x) as [Hx | Hx].
  - rewrite persistence_step_over by done.
    destruct (PERSISTENCE_COUNT <=? S (high_count d))%nat eqn:Hc;
      [apply Nat.leb_le in Hc | apply Nat.leb_gt in Hc];
      destruct (is_alert_active d) eqn:Ha;
      destruct (Num.gtb (now_ - last_remote_alert d) cooldown) eqn:Ht;
      num_prop; simpl; split;
      try (intros H; by apply elem_of_nil in H);
      try (intros (? & ? & ? & ?); first [lia | congruence | lra]).
    + intros _. done.
    + intros _. apply list_elem_of_singleton. done.
  - rewrite persistence_step_under by done. split.
    + destruct (is_alert_active d); simpl; intros H.
      * apply list_elem_of_singleton in H. discriminate.
      * by apply elem_of_nil in H.
    + intros (? & _). lra.
Qed.

Lemma recovery_sent_iff x r now_ d :
  RecoveryAlert q r ∈ snd (pstep x r now_ d) <->
  (x < threshold)%Q /\ is_alert_active d = true.
Proof.
  destruct (over_or_under x) as [Hx | Hx].
  - rewrite persistence_step_over by done. split.
    + destruct (_ && _); simpl; intros H.
      * apply list_elem_of_singleton in H. discriminate.
      * by apply elem_of_nil in H.
    + intros (? & _). lra.
  - rewrite persistence_step_under by done.
    destruct (is_alert_active d); simpl; split.
    + done.
    + intros _. by apply list_elem_of_singleton.
    + intros H. by apply elem_of_nil in H.
    + intros (_ & ?). done.
Qed.

Lemma debounce_run_cons now_ x rest d :
  debounce_run q threshold ((now_, x) :: rest) d =
    (fst (debounce_run q threshold rest (fst (pstep x x now_ d))),
     snd (pstep x x now_ d)
       :: snd (debounce_run q threshold rest (fst (pstep x x now_ d)))).
Proof.
  cbn [debounce_run]. destruct (pstep x x now_ d) as [d1 sent].
  cbn [fst snd]. by destruct (debounce_run q threshold rest d1) as [d2 more].
Qed.

(** What one sample sends follows the turn of the [active] flag, which is
    the flag after it. *)
Lemma persistence_step_alternates x r now_ d l :
  alternates q (is_alert_active (fst (pstep x r now_ d))) l = true ->
  alternates q (is_alert_active d) (snd (pstep x r now_ d) ++ l) = true.
Proof.
  destruct (over_or_under x) as [Hx | Hx].
  - rewrite persistence_step_over by done.
    destruct (is_alert_active d) eqn:Ha.
    + rewrite andb_false_r. simpl. done.
    + destruct (_ && _); simpl; [|done].
      intros ->. by rewrite bool_decide_eq_true_2.
  - rewrite persistence_step_under by done.
    destruct (is_alert_active d) eqn:Ha; simpl; [|done].
    intros ->. by rewrite bool_decide_eq_true_2.
Qed.

Lemma debounce_run_alternates samples d :
  alternates q (is_alert_active d)
    (concat (snd (debounce_run q threshold samples d))) = true.
Proof.
  revert d. induction samples as [|[now_ x] samples IH]; intros d; [done|].
  simpl. pose proof (persistence_step_alternates x x now_ d) as Hstep.
  destruct (pstep x x now_ d) as [d1 sent]. specialize (IH d1).
  destruct (debounce_run q threshold samples d1) as [d2 more].
  simpl in *. by apply Hstep.
Qed.

(** Over a run of samples that are all over the threshold: once the flag
    is set nothing more is sent, and before that at most one rising alert. *)
Lemma over_run_active samples d :
  Forall (fun s => (threshold <= snd s)%Q) samples ->
  is_alert_active d = true ->
  concat (snd (debounce_run q threshold samples d)) = [].
Proof.
  intros Hall. revert d.
  induction Hall as [|[now_ x] samples Hx _ IH]; intros d Ha; [done|].
  simpl in *. rewrite persistence_step_over by done.
  rewrite Ha, andb_false_r. simpl.
  specialize (IH {| high_count := S (high_count d); is_alert_active := true;
                    last_remote_alert := last_remote_alert d |} eq_refl).
  by destruct (debounce_run _ _ _ _) as [d2 more].
Qed.

Lemma over_run_at_most_one samples d :
  Forall (fun s => (threshold <= snd s)%Q) samples ->
  (length (List.filter (is_rising q)
     (concat (snd (debounce_run q threshold samples d)))) <= 1)%nat.
Proof.
  intros Hall. revert d.
  induction Hall as [|[now_ x] samples Hx Hall IH]; intros d; [simpl; lia|].
  simpl in *. rewrite persistence_step_over by done.
  destruct (_ && _).
  - pose proof (over_run_active samples
      {| high_count := S (high_count d); is_alert_active := true;
         last_remote_alert := now_ |} Hall eq_refl) as Hnone.
    destruct (debounce_run _ _ _ _) as [d2 more]. simpl in *.
    rewrite Hnone. simpl. rewrite bool_decide_eq_true_2 by done. simpl. lia.
  - specialize (IH {| high_count := S (high_count d);
                      is_alert_active := is_alert_active d;
                      last_remote_alert := last_remote_alert d |}).
    by destruct (debounce_run _ _ _ _) as [d2 more].
Qed.

(** C5, as the code has it.  A sample sends a rising alert exactly when
    it is over the threshold, the count of consecutive such samples has
    reached [PERSISTENCE_COUNT], no alert is active and more than the
    cooldown has passed since the last rising alert of the quantity.  A
    sample sends a recovery alert exactly when it is under the threshold
    while an alert is active, whatever the clock reads.  Along any run
    rising and recovery alerts take turns, and a run of over-threshold
    samples sends at most one rising alert. *)
Theorem persistence_alert_gating :
  (forall x r now_ d,
     RisingAlert q r ∈ snd (pstep x r now_ d) <->
     (threshold <= x)%Q /\ (PERSISTENCE_COUNT <= S (high_count d))%nat /\
     is_alert_active d = false /\ (cooldown < now_ - last_remote_alert d)%Q) /\
  (forall x r now_ d,
     RecoveryAlert q r ∈ snd (pstep x r now_ d) <->
     (x < threshold)%Q /\ is_alert_active d = true) /\
  (forall samples d,
     alternates q (is_alert_active d)
       (concat (snd (debounce_run q threshold samples d))) = true) /\
  (forall samples d,
     Forall (fun s => (threshold <= snd s)%Q) samples ->
     (length (List.filter (is_rising q)
        (concat (snd (debounce_run q threshold samples d)))) <= 1)%nat).
Proof.
  split; [exact rising_sent_iff|]. split; [exact recovery_sent_iff|].
  split; [exact debounce_run_alternates | exact over_run_at_most_one].
Qed.

End Debouncer.

(** *** The keyed disk cooldown *)

Lemma remote_key_inj (prefix a b : string) :
  (prefix +:+ a = prefix +:+ b)%string -> a = b.
Proof.
  induction prefix as [|ch prefix IH]; simpl; [done|].
  intros H. injection H. exact IH.
Qed.

Lemma last_fired_insert last k t : last_fired (<[k := t]> last) k = t.
Proof. unfold last_fired. by rewrite lookup_insert_eq. Qed.

Lemma last_fired_insert_ne last k k' t :
  k <> k' -> last_fired (<[k := t]> last) k' = last_fired last k'.
Proof. intros Hne. unfold last_fired. by rewrite lookup_insert_ne. Qed.

Lemma cooldown_nonneg : (0 <= cooldown)%Q.
Proof. vm_compute. discriminate. Qed.

Lemma gate_accepts_app last e1 e2 :
  gate_accepts last (e1 ++ e2) <->
  gate_accepts last e1 /\ gate_accepts (record_events last e1) e2.
Proof.
  revert last. induction e1 as [|[t k] e1 IH]; intros last; simpl; [tauto|].
  rewrite IH. tauto.
Qed.

(** An accepted message comes more than the cooldown after the time the
    starting record holds for its key. *)
Lemma gate_accepts_after last ev t k :
  gate_accepts last ev -> (t, k) ∈ ev ->
  (cooldown < t - last_fired last k)%Q.
Proof.
  revert last. induction ev as [|[t' k'] ev IH]; intros last Hacc Hin.
  - by apply elem_of_nil in Hin.
  - destruct Hacc as [Hhead Htail].
    apply elem_of_cons in Hin as [Heq | Hin]; [by inversion Heq; subst|].
    specialize (IH _ Htail Hin).
    destruct (decide (k' = k)) as [-> | Hne].
    + rewrite last_fired_insert in IH.
      pose proof cooldown_nonneg. lra.
    + by rewrite last_fired_insert_ne in IH.
Qed.

Lemma gate_accepts_spaced last ev i j t1 t2 k :
  gate_accepts last ev -> (i < j)%nat ->
  ev !! i = Some (t1, k) -> ev !! j = Some (t2, k) ->
  (cooldown < t2 - t1)%Q.
Proof.
  revert last i j. induction ev as [|[t' k'] ev IH]; intros last i j Hacc Hij Hi Hj.
  - done.
  - destruct Hacc as [Hhead Htail]. destruct j as [|j]; [lia|].
    destruct i as [|i]; simpl in Hi, Hj.
    + inversion Hi; subst.
      assert ((t2, k) ∈ ev) as Hin by (apply list_elem_of_lookup; eauto).
      pose proof (gate_accepts_after _ _ _ _ Htail Hin) as Hafter.
      by rewrite last_fired_insert in Hafter.
    + apply (IH _ i j Htail); [lia | done | done].
Qed.

Lemma disk_loop_accepted now_ remote_alerts last :
  gate_accepts last (loop_events now_ (snd (disk_loop now_ remote_alerts last))) /\
  fst (disk_loop now_ remote_alerts last)
    = record_events last (loop_events now_ (snd (disk_loop now_ remote_alerts last))).
Proof.
  revert last.
  induction remote_alerts as [|[[mount pct] used_] rest IH]; intros last; [done|].
  cbn [disk_loop].
  destruct (Num.gtb _ _) eqn:Hgate; [|apply IH].
  specialize (IH (<[("remote_" +:+ mount)%string := now_]> last)).
  destruct (disk_loop now_ rest _) as [last' sent].
  apply NumFacts.gtb_true in Hgate. simpl in *. tauto.
Qed.

Lemma persistence_step_no_disk q threshold x r now_ d t :
  loop_events t (snd (persistence_step q threshold x r now_ d)) = [].
Proof.
  unfold persistence_step.
  destruct (Num.geb x threshold); destruct (is_alert_active d);
    destruct (_ && _); reflexivity.
Qed.

Lemma loop_events_app t l1 l2 :
  loop_events t (l1 ++ l2) = loop_events t l1 ++ loop_events t l2.
Proof. apply omap_app. Qed.

Lemma disk_events_stamped t sent :
  disk_events (map (pair t) sent) = loop_events t sent.
Proof.
  unfold disk_events, loop_events.
  induction sent as [|a sent IH]; [done|].
  cbn [map omap list_omap fst snd]. rewrite IH. by destruct (disk_key a).
Qed.

Lemma disk_events_app l1 l2 :
  disk_events (l1 ++ l2) = disk_events l1 ++ disk_events l2.
Proof. apply omap_app. Qed.

Section Disk.

Variables CPU_THRESHOLD_PCT RAM_THRESHOLD_PCT LOAD_PER_CORE_THRESHOLD : Q.
Variable DISK_THRESHOLD_PCT : Q.

Local Abbreviation hw_section :=
  (hardware_section CPU_THRESHOLD_PCT RAM_THRESHOLD_PCT LOAD_PER_CORE_THRESHOLD
     DISK_THRESHOLD_PCT).
Local Abbreviation mrun :=
  (monitor_run CPU_THRESHOLD_PCT RAM_THRESHOLD_PCT LOAD_PER_CORE_THRESHOLD
     DISK_THRESHOLD_PCT).

Lemma hardware_section_disk c st :
  loop_events (now c) (snd (hw_section c st))
    = loop_events (now c)
        (snd (disk_loop (now c)
                (match hardware c with
                 | Some _ => alert_data DISK_THRESHOLD_PCT (df_rows c)
                 | None => []
                 end) (last_remote_disk_alert st))) /\
  last_remote_disk_alert (fst (hw_section c st))
    = fst (disk_loop (now c)
             (match hardware c with
              | Some _ => alert_data DISK_THRESHOLD_PCT (df_rows c)
              | None => []
              end) (last_remote_disk_alert st)).
Proof.
  unfold hardware_section. destruct (hardware c) as [rd|]; [|done].
  pose proof (persistence_step_no_disk CPU CPU_THRESHOLD_PCT (cpu_pct rd) (cpu_pct rd)
                (now c) (cpu st) (now c)) as H1.
  pose proof (persistence_step_no_disk RAM RAM_THRESHOLD_PCT (ram_pct rd) (ram_pct rd)
                (now c) (ram st) (now c)) as H2.
  pose proof (persistence_step_no_disk LOAD LOAD_PER_CORE_THRESHOLD
                (load1 rd / cores rd) (load1 rd) (now c) (load st) (now c)) as H3.
  destruct (persistence_step CPU _ _ _ _ _) as [cpu' a1].
  destruct (persistence_step RAM _ _ _ _ _) as [ram' a2].
  destruct (persistence_step LOAD _ _ _ _ _) as [load' a3].
  destruct (disk_loop _ _ _) as [disk' a4]. simpl in *.
  by rewrite !loop_events_app, H1, H2, H3.
Qed.

Lemma monitor_run_accepted cs st :
  gate_accepts (last_remote_disk_alert st) (disk_events (snd (mrun cs st))).
Proof.
  revert st. induction cs as [|c cs IH]; intros st; [done|].
  cbn [monitor_run].
  destruct (hardware_section_disk c st) as [Hev Hlast].
  destruct (hw_section c st) as [st1 a1]. specialize (IH st1).
  destruct (mrun cs st1) as [st2 a2]. simpl in *.
  rewrite disk_events_app, disk_events_stamped, Hev.
  apply gate_accepts_app.
  destruct (disk_loop_accepted (now c)
              (match hardware c with
               | Some _ => alert_data DISK_THRESHOLD_PCT (df_rows c)
               | None => []
               end) (last_remote_disk_alert st)) as [Hacc Hrec].
  split; [exact Hacc|]. by rewrite <- Hrec, <- Hlast.
Qed.

(** A mount above the threshold whose cooldown has passed gets its
    message in the loop. *)
Lemma disk_loop_fires now_ remote_alerts last mount pct used_ :
  (mount, pct, used_) ∈ remote_alerts ->
  (cooldown < now_ - last_fired last ("remote_" +:+ mount))%Q ->
  exists pct' used', DiskAlert mount pct' used' ∈ snd (disk_loop now_ remote_alerts last).
Proof.
  revert last.
  induction remote_alerts as [|[[m p] u] rest IH]; intros last Hin Hgate.
  - by apply elem_of_nil in Hin.
  - cbn [disk_loop].
    destruct (decide (m = mount)) as [-> | Hne].
    + apply NumFacts.gtb_true in Hgate. rewrite Hgate.
      destruct (disk_loop now_ rest _) as [last' sent]. simpl.
      exists p, u. apply elem_of_cons. by left.
    + apply elem_of_cons in Hin as [Heq | Hin]; [by inversion Heq|].
      destruct (Num.gtb _ _) eqn:Hm.
      * destruct (IH (<[("remote_" +:+ m)%string := now_]> last) Hin)
          as (pct' & used' & Hsent).
        { rewrite last_fired_insert_ne; [done|].
          intros Heq. by apply remote_key_inj in Heq. }
        destruct (disk_loop now_ rest _) as [last' sent]. simpl in *.
        exists pct', used'. apply elem_of_cons. by right.
      * by apply IH.
Qed.

(** The CPU block inside the hardware section is the debouncer step on
    [cpu_pct], and the CPU messages of the section are the ones it sends. *)
Lemma persistence_step_about q q' threshold x r now_ d :
  List.filter (about q') (snd (persistence_step q threshold x r now_ d))
    = if decide (q = q') then snd (persistence_step q threshold x r now_ d) else [].
Proof.
  unfold persistence_step, about.
  destruct (Num.geb x threshold); destruct (is_alert_active d);
    destruct (_ && _); destruct (decide (q = q')) as [-> | Hne]; simpl;
    rewrite ?bool_decide_eq_true_2, ?bool_decide_eq_false_2 by done; simpl;
    rewrite ?bool_decide_eq_true_2, ?bool_decide_eq_false_2 by done; done.
Qed.

Lemma disk_loop_about q now_ remote_alerts last :
  List.filter (about q) (snd (disk_loop now_ remote_alerts last)) = [].
Proof.
  revert last.
  induction remote_alerts as [|[[mount pct] used_] rest IH]; intros last; [done|].
  cbn [disk_loop]. destruct (Num.gtb _ _); [|apply IH].
  specialize (IH (<[("remote_" +:+ mount)%string := now_]> last)).
  by destruct (disk_loop now_ rest _) as [last' sent].
Qed.

Lemma hardware_section_cpu c st rd :
  hardware c = Some rd ->
  cpu (fst (hw_section c st))
    = fst (persistence_step CPU CPU_THRESHOLD_PCT (cpu_pct rd) (cpu_pct rd)
             (now c) (cpu st)) /\
  List.filter (about CPU) (snd (hw_section c st))
    = snd (persistence_step CPU CPU_THRESHOLD_PCT (cpu_pct rd) (cpu_pct rd)
             (now c) (cpu st)).
Proof.
  intros Hhw. unfold hardware_section. rewrite Hhw.
  pose proof (persistence_step_about CPU CPU CPU_THRESHOLD_PCT (cpu_pct rd) (cpu_pct rd)
                (now c) (cpu st)) as H1.
  pose proof (persistence_step_about RAM CPU RAM_THRESHOLD_PCT (ram_pct rd) (ram_pct rd)
                (now c) (ram st)) as H2.
  pose proof (persistence_step_about LOAD CPU LOAD_PER_CORE_THRESHOLD
                (load1 rd / cores rd) (load1 rd) (now c) (load st)) as H3.
  pose proof (disk_loop_about CPU (now c) (alert_data DISK_THRESHOLD_PCT (df_rows c))
                (last_remote_disk_alert st)) as H4.
  destruct (persistence_step CPU _ _ _ _ _) as [cpu' a1].
  destruct (persistence_step RAM _ _ _ _ _) as [ram' a2].
  destruct (persistence_step LOAD _ _ _ _ _) as [load' a3].
  destruct (disk_loop _ _ _) as [disk' a4]. simpl in *.
  rewrite !List.filter_app, H1, H2, H3, H4. by rewrite !app_nil_r.
Qed.

(** C8.  Among the disk messages of any run of the monitoring loop, from
    any state, two messages with the same key are more than the cooldown
    apart, however many iterations found the mount above the threshold in
    between; and an iteration that finds a mount above the threshold more
    than the cooldown after the time recorded for its key sends a message
    for it. *)
Theorem disk_cooldown_spacing :
  (forall cs st i j t1 t2 k,
     (i < j)%nat ->
     disk_events (snd (mrun cs st)) !! i = Some (t1, k) ->
     disk_events (snd (mrun cs st)) !! j = Some (t2, k) ->
     (cooldown < t2 - t1)%Q) /\
  (forall c st rd row,
     hardware c = Some rd -> row ∈ df_rows c ->
     (DISK_THRESHOLD_PCT <= inject_Z (usage_pct row))%Q ->
     (cooldown < now c
        - last_fired (last_remote_disk_alert st) ("remote_" +:+ mount_point row))%Q ->
     exists pct' used',
       DiskAlert (mount_point row) pct' used' ∈ snd (hw_section c st)).
Proof.
  split.
  - intros cs st i j t1 t2 k Hij Hi Hj.
    exact (gate_accepts_spaced _ _ _ _ _ _ _ (monitor_run_accepted cs st) Hij Hi Hj).
  - intros c st rd row Hhw Hrow Hpct Hgate.
    assert ((mount_point row, usage_pct row, used row)
              ∈ alert_data DISK_THRESHOLD_PCT (df_rows c)) as Hin.
    { unfold alert_data.
      apply (list_elem_of_fmap_2 (fun r => (mount_point r, usage_pct r, used r))).
      apply list_elem_of_In, List.filter_In. split; [by apply list_elem_of_In|].
      by apply NumFacts.geb_true. }
    destruct (disk_loop_fires (now c) _ (last_remote_disk_alert st) _ _ _ Hin Hgate)
      as (pct' & used' & Hsent).
    exists pct', used'. unfold hardware_section. rewrite Hhw.
    destruct (persistence_step CPU _ _ _ _ _) as [cpu' a1].
    destruct (persistence_step RAM _ _ _ _ _) as [ram' a2].
    destruct (persistence_step LOAD _ _ _ _ _) as [load' a3].
    destruct (disk_loop _ _ _) as [disk' a4]. simpl in *.
    rewrite !elem_of_app. tauto.
Qed.

End Disk.

Lemma persistence_alert_gating_witness :
  Forall (fun s => (80 <= snd s)%Q)
    [(t0, 85); (t0 + 60, 85); (t0 + 120, 85); (t0 + 180, 90)]%Q /\
  (length (List.filter (is_rising CPU)
     (concat (snd (debounce_run CPU 80
        [(t0, 85); (t0 + 60, 85); (t0 + 120, 85); (t0 + 180, 90)]%Q fresh)))) <= 1)%nat.
Proof.
  assert (Forall (fun s => (80 <= snd s)%Q)
            [(t0, 85); (t0 + 60, 85); (t0 + 120, 85); (t0 + 180, 90)]%Q) as Hover.
  { repeat constructor; vm_compute; discriminate. }
  split; [exact Hover|].
  destruct (persistence_alert_gating CPU 80) as (_ & _ & _ & Hone).
  exact (Hone _ fresh Hover).
Defined.

(** C5, as stated, fails on both counts.  Three samples over the threshold
    send the rising alert at [t0 + 120]; the sample 70 one minute later sends
    the recovery alert, 60 seconds after the rising one, inside the cooldown
    of 300.  The next three samples over the threshold reach the count 3 at
    [t0 + 360], 240 seconds after the rising alert, so no rising alert is
    sent for that run before it ends at [t0 + 420]. *)
Lemma recovery_ungated_and_run_without_rising :
  snd (debounce_run CPU 80
         [(t0, 85); (t0 + 60, 85); (t0 + 120, 85); (t0 + 180, 70);
          (t0 + 240, 85); (t0 + 300, 85); (t0 + 360, 85); (t0 + 420, 70)]%Q fresh)
    = [[]; []; [RisingAlert CPU 85]; [RecoveryAlert CPU 70]; []; []; []; []] /\
  Num.gtb ((t0 + 180) - (t0 + 120)) cooldown = false /\
  Num.gtb ((t0 + 360) - (t0 + 120)) cooldown = false.
Proof. by vm_compute. Qed.

(** Runs the debouncer on the next sample of a run of 85s and 70s against
    the threshold 80. *)
Ltac one_sample Hover Hunder :=
  rewrite debounce_run_cons;
  rewrite ?(persistence_step_over CPU 80 85) by exact Hover;
  rewrite ?(persistence_step_under CPU 80 70) by exact Hunder;
  cbn [high_count is_alert_active last_remote_alert fresh fst snd
       PERSISTENCE_COUNT Nat.leb negb andb].

(** C7.  With the CPU threshold at 80 and a fresh debouncer, three
    samples of 85 send one rising alert, on the third sample and not before,
    provided the clock of the third sample reads more than the cooldown
    (the last alert time of a fresh debouncer is 0); the samples 85, 85, 70
    send nothing and leave the counter at 0. *)
Theorem cpu_persistence_three_samples (t1 t2 t3 : Q) :
  (ALERT_COOLDOWN < t3)%Q ->
  PERSISTENCE_COUNT = 3%nat /\
  snd (debounce_run CPU 80 [(t1, 85); (t2, 85); (t3, 85)]%Q fresh)
    = [[]; []; [RisingAlert CPU 85]] /\
  snd (debounce_run CPU 80 [(t1, 85); (t2, 85); (t3, 70)]%Q fresh) = [[]; []; []] /\
  high_count (fst (debounce_run CPU 80 [(t1, 85); (t2, 85); (t3, 70)]%Q fresh)) = 0%nat.
Proof.
  intros Ht3. split; [reflexivity|].
  assert (Num.gtb (t3 - 0) cooldown = true) as Hgate.
  { apply NumFacts.gtb_true. unfold cooldown. lra. }
  assert ((80 <= 85)%Q) as Hover by (vm_compute; discriminate).
  assert ((70 < 80)%Q) as Hunder by reflexivity.
  one_sample Hover Hunder. one_sample Hover Hunder. one_sample Hover Hunder.
  rewrite Hgate. done.
Qed.

Lemma cpu_persistence_three_samples_witness :
  (ALERT_COOLDOWN < t0 + 120)%Q /\
  snd (debounce_run CPU 80 [(t0, 85); (t0 + 60, 85); (t0 + 120, 85)]%Q fresh)
    = [[]; []; [RisingAlert CPU 85]].
Proof.
  split; [reflexivity|].
  destruct (cpu_persistence_three_samples t0 (t0 + 60) (t0 + 120)) as (_ & Hthree & _).
  - reflexivity.
  - exact Hthree.
Defined.

Lemma disk_cooldown_spacing_witness :
  (disk_events (snd (monitor_run 80 80 2 90
      [disk_reading t0 95; disk_reading (t0 + 60) 95; disk_reading (t0 + 400) 95]
      initial_state))
     = [(t0, "remote_/"%string); ((t0 + 400)%Q, "remote_/"%string)] /\
   (cooldown < (t0 + 400) - t0)%Q) /\
  exists pct' used',
    DiskAlert "/" pct' used'
      ∈ snd (hardware_section 80 80 2 90 (disk_reading t0 95) initial_state).
Proof.
  destruct (disk_cooldown_spacing 80 80 2 90) as [Hspaced Hfires].
  split; [split; [by vm_compute|]|].
  - apply (Hspaced
             [disk_reading t0 95; disk_reading (t0 + 60) 95; disk_reading (t0 + 400) 95]
             initial_state 0%nat 1%nat t0 (t0 + 400)%Q "remote_/"%string).
    + lia.
    + vm_compute. reflexivity.
    + vm_compute. reflexivity.
  - apply (Hfires (disk_reading t0 95) initial_state
             {| cpu_pct := 10; ram_pct := 10; load1 := 0; cores := 2 |}
             {| mount_point := "/"; usage_pct := 95; used := 900; total := 1000 |}).
    + reflexivity.
    + apply list_elem_of_singleton. reflexivity.
    + vm_compute. discriminate.
    + reflexivity.
Defined.

(** The same three CPU samples through the loop body itself: only the third
    iteration sends, and what it sends is the rising CPU alert. *)
Example three_cpu_readings_through_the_loop :
  snd (monitor_run 80 80 2 90
         [cpu_reading t0 85; cpu_reading (t0 + 60) 85; cpu_reading (t0 + 120) 85]
         initial_state)
    = [((t0 + 120)%Q, RisingAlert CPU 85)].
Proof. by vm_compute. Qed.

End SentinelFacts.

(** ** The LND monitoring task *)

Module LndFacts.
Import Lnd.

Lemma peers_check_diff prev_peers peers :
  peers_check prev_peers peers =
    (list_to_set peers,
     map NewPeerConnected (elements (fst (diff prev_peers (list_to_set peers))))
     ++ map PeerDisconnected (elements (snd (diff prev_peers (list_to_set peers))))).
Proof. reflexivity. Qed.

Lemma channels_check_diff prev_channels channels :
  channels_check prev_channels channels =
    (list_to_set channels,
     map ChannelOpened (elements (fst (diff prev_channels (list_to_set channels))))
     ++ map ChannelClosed (elements (snd (diff prev_channels (list_to_set channels))))).
Proof. reflexivity. Qed.

Lemma diff_same (S : gset string) : diff S S = (∅, ∅).
Proof. unfold diff. by rewrite difference_diag_L. Qed.

(** C9.  The two differences are [current - previous] and
    [previous - current], with the membership that goes with them; a
    snapshot compared with itself gives two empty sets, so an unchanged peer
    or channel list sends nothing; and exchanging the two snapshots
    exchanges the two components. *)
Theorem set_diff_algebra :
  (forall previous current : gset string,
     fst (diff previous current) = current ∖ previous /\
     snd (diff previous current) = previous ∖ current) /\
  (forall (previous current : gset string) (x : string),
     (x ∈ fst (diff previous current) <-> x ∈ current /\ x ∉ previous) /\
     (x ∈ snd (diff previous current) <-> x ∈ previous /\ x ∉ current)) /\
  (forall S : gset string, diff S S = (∅, ∅)) /\
  (forall peers : list string,
     snd (peers_check (list_to_set peers) peers) = [] /\
     snd (channels_check (list_to_set peers) peers) = []) /\
  (forall A B : gset string,
     fst (diff A B) = snd (diff B A) /\ snd (diff A B) = fst (diff B A)).
Proof.
  split; [done|]. split; [|split; [exact diff_same|split]].
  - intros previous current x. unfold diff. simpl. split; apply elem_of_difference.
  - intros peers.
    rewrite peers_check_diff, channels_check_diff, diff_same. simpl.
    by rewrite elements_empty.
  - done.
Qed.

End LndFacts.

(** ** Cooldown gates in general *)

Module GateFacts.
Import Gate.

Lemma chain_weaken gap x x' ts :
  (0 <= gap)%Q -> (gap < x' - x)%Q -> chain gap x' ts -> chain gap x ts.
Proof.
  intros Hgap Hx. destruct ts as [|t ts]; simpl; [done|].
  intros [Ht Hrest]. split; [lra | done].
Qed.

Lemma chain_after gap x ts :
  (0 <= gap)%Q -> chain gap x ts -> Forall (fun t => (gap < t - x)%Q) ts.
Proof.
  intros Hgap. revert x. induction ts as [|t ts IH]; intros x; simpl; [done|].
  intros [Ht Hrest]. constructor; [done|].
  apply IH. by apply (chain_weaken gap x t).
Qed.

Lemma chain_pairwise gap x ts :
  (0 <= gap)%Q -> chain gap x ts -> pairwise_apart gap ts.
Proof.
  intros Hgap. revert x. induction ts as [|t ts IH]; intros x Hc i j t1 t2 Hij Hi Hj.
  - done.
  - destruct Hc as [Ht Hrest]. destruct j as [|j]; [lia|].
    destruct i as [|i]; simpl in Hi, Hj.
    + inversion Hi; subst.
      pose proof (chain_after gap t1 ts Hgap Hrest) as Hall.
      rewrite Forall_forall in Hall. apply Hall.
      apply list_elem_of_lookup. eauto.
    + apply (IH t Hrest i j); [lia | done | done].
Qed.

Lemma event_times_step {A : Type} (kind : A -> bool) (t : Q) (sent : list A)
    (tr : list (Q * A)) :
  event_times kind (map (pair t) sent ++ tr)
    = map (fun _ => t) (List.filter kind sent) ++ event_times kind tr.
Proof.
  unfold event_times. rewrite List.filter_app, map_app. f_equal.
  induction sent as [|a sent IH]; [done|].
  cbn [map List.filter snd]. destruct (kind a); cbn [map fst]; by rewrite IH.
Qed.

Section Run.

Context {C S A : Type}.
Variable step : C -> S -> S * list A.
Variable clock : C -> Q.
Variable kind : A -> bool.
Variable gap : Q.
Variable last : S -> Q.
Variable Inv : S -> Prop.

Hypothesis gap_nonneg : (0 <= gap)%Q.
Hypothesis step_gate : forall c st, Inv st ->
  Inv (fst (step c st)) /\
  gate_step kind gap last (clock c) st (fst (step c st)) (snd (step c st)).
Hypothesis step_fire : forall c st,
  List.filter kind (snd (step c st)) = [] \/
  (Inv (fst (step c st)) /\ last (fst (step c st)) = clock c /\
   exists a, List.filter kind (snd (step c st)) = [a]).

Lemma timed_run_cons c cs st :
  snd (timed_run step clock (c :: cs) st)
    = map (pair (clock c)) (snd (step c st))
      ++ snd (timed_run step clock cs (fst (step c st))).
Proof.
  cbn [timed_run]. destruct (step c st) as [st1 a1]. cbn [fst snd].
  by destruct (timed_run step clock cs st1) as [st2 a2].
Qed.

Lemma timed_run_chain cs st :
  Inv st ->
  chain gap (last st) (event_times kind (snd (timed_run step clock cs st))).
Proof.
  revert st. induction cs as [|c cs IH]; intros st Hinv; [done|].
  rewrite timed_run_cons, event_times_step.
  destruct (step_gate c st Hinv) as [Hinv1 Hgate].
  specialize (IH _ Hinv1).
  destruct Hgate as [[Hnone [Hsame | [Hmoved Hgap]]] | (a & Hone & Hmoved & Hgap)].
  - rewrite Hnone. simpl. by rewrite <- Hsame.
  - rewrite Hnone. simpl. rewrite Hmoved in IH.
    by apply (chain_weaken gap (last st) (clock c)).
  - rewrite Hone. simpl. rewrite Hmoved in IH. done.
Qed.

Lemma timed_run_apart cs st :
  pairwise_apart gap (event_times kind (snd (timed_run step clock cs st))).
Proof.
  revert st. induction cs as [|c cs IH]; intros st.
  - intros i j t1 t2 _ Hi. done.
  - rewrite timed_run_cons, event_times_step.
    destruct (step_fire c st) as [Hnone | (Hinv1 & Hlast & a & Hone)].
    + rewrite Hnone. simpl. apply IH.
    + rewrite Hone. simpl.
      pose proof (timed_run_chain cs _ Hinv1) as Hchain. rewrite Hlast in Hchain.
      apply (chain_pairwise gap (clock c - gap - 1)); [done|].
      simpl. split; [lra | done].
Qed.

End Run.

End GateFacts.

(** ** The surveillance task over time *)

Module MarketFacts.
Import Crypto Market Gate.

Section Thresholds.

Variables FEE_LOW_THRESHOLD FEE_MED_THRESHOLD : Q.
Variables PRICE_CHANGE_THRESHOLD_LOW PRICE_CHANGE_THRESHOLD_HIGH : Q.

Local Abbreviation classify := (classify_fee FEE_LOW_THRESHOLD FEE_MED_THRESHOLD).
Local Abbreviation fee_sec := (fee_section FEE_LOW_THRESHOLD FEE_MED_THRESHOLD).
Local Abbreviation price_sec :=
  (price_section PRICE_CHANGE_THRESHOLD_LOW PRICE_CHANGE_THRESHOLD_HIGH).
Local Abbreviation step :=
  (surveillance_step FEE_LOW_THRESHOLD FEE_MED_THRESHOLD
     PRICE_CHANGE_THRESHOLD_LOW PRICE_CHANGE_THRESHOLD_HIGH).
Local Abbreviation run :=
  (surveillance_run FEE_LOW_THRESHOLD FEE_MED_THRESHOLD
     PRICE_CHANGE_THRESHOLD_LOW PRICE_CHANGE_THRESHOLD_HIGH).
Local Abbreviation trace :=
  (surveillance_trace FEE_LOW_THRESHOLD FEE_MED_THRESHOLD
     PRICE_CHANGE_THRESHOLD_LOW PRICE_CHANGE_THRESHOLD_HIGH).

(** *** The bands of the fee classification *)

(** X1.  The level is HIGH exactly above the medium threshold, LOW exactly
    at or below both thresholds, MEDIUM exactly above the low and at or
    below the medium threshold; and a larger fee never gets a cheaper
    level, whatever the order of the two thresholds. *)
Theorem classify_fee_bands :
  (forall fee,
     (classify fee = HIGH <-> (FEE_MED_THRESHOLD < fee)%Q) /\
     (classify fee = LOW <->
        (fee <= FEE_MED_THRESHOLD)%Q /\ (fee <= FEE_LOW_THRESHOLD)%Q) /\
     (classify fee = MEDIUM <->
        (FEE_LOW_THRESHOLD < fee)%Q /\ (fee <= FEE_MED_THRESHOLD)%Q)) /\
  (forall fee1 fee2, (fee1 <= fee2)%Q ->
     (severity (classify fee1) <= severity (classify fee2))%nat).
Proof.
  split.
  - intros fee. unfold classify_fee.
    destruct (Num.gtb fee FEE_MED_THRESHOLD) eqn:Hmed;
      destruct (Num.leb fee FEE_LOW_THRESHOLD) eqn:Hlow;
      destruct (Num.gtb fee FEE_LOW_THRESHOLD) eqn:Hlow';
      destruct (Num.leb fee FEE_MED_THRESHOLD) eqn:Hmed';
      num_prop; cbn [andb];
      repeat split; intros; try discriminate; try done; try lra;
      match goal with H : _ /\ _ |- _ => destruct H; lra end.
  - intros fee1 fee2 Hle. unfold classify_fee.
    destruct (Num.gtb fee1 FEE_MED_THRESHOLD) eqn:H1;
      destruct (Num.leb fee1 FEE_LOW_THRESHOLD) eqn:H2;
      destruct (Num.gtb fee1 FEE_LOW_THRESHOLD) eqn:H3;
      destruct (Num.leb fee1 FEE_MED_THRESHOLD) eqn:H4;
      destruct (Num.gtb fee2 FEE_MED_THRESHOLD) eqn:H5;
      destruct (Num.leb fee2 FEE_LOW_THRESHOLD) eqn:H6;
      destruct (Num.gtb fee2 FEE_LOW_THRESHOLD) eqn:H7;
      destruct (Num.leb fee2 FEE_MED_THRESHOLD) eqn:H8;
      num_prop; cbn [andb severity]; try lia; lra.
Qed.

(** *** What each section leaves alone *)

Lemma fee_section_keeps c st :
  last_price_volatility_alert_ts (fst (fee_sec c st))
    = last_price_volatility_alert_ts st /\
  LAST_VOLATILITY_REFERENCE_USD (fst (fee_sec c st))
    = LAST_VOLATILITY_REFERENCE_USD st /\
  PRICE_HISTORY (fst (fee_sec c st)) = PRICE_HISTORY st.
Proof. unfold fee_section. repeat case_match; done. Qed.

Lemma price_section_keeps c st :
  current_fee_state (fst (price_sec c st)) = current_fee_state st /\
  last_fee_alert_ts (fst (price_sec c st)) = last_fee_alert_ts st /\
  LAST_MACRO_REPORT_TS (fst (price_sec c st)) = LAST_MACRO_REPORT_TS st.
Proof. unfold price_section, volatility_eval. repeat case_match; done. Qed.

Lemma macro_section_keeps c st :
  current_fee_state (fst (macro_section c st)) = current_fee_state st /\
  last_fee_alert_ts (fst (macro_section c st)) = last_fee_alert_ts st /\
  last_price_volatility_alert_ts (fst (macro_section c st))
    = last_price_volatility_alert_ts st /\
  LAST_VOLATILITY_REFERENCE_USD (fst (macro_section c st))
    = LAST_VOLATILITY_REFERENCE_USD st /\
  PRICE_HISTORY (fst (macro_section c st)) = PRICE_HISTORY st.
Proof. unfold macro_section. repeat case_match; done. Qed.

(** *** The three outcomes of the fee section *)

Lemma fee_message_one cur fee val :
  classify fee <> cur ->
  exists a, fee_message cur (classify fee) val = [a] /\
    is_fee_alert a = true /\ alert_level a = Some (classify fee).
Proof.
  intros _.
  destruct (CryptoFacts.classify_cases FEE_LOW_THRESHOLD FEE_MED_THRESHOLD fee)
    as [-> | [-> | ->]]; eexists; (split; [reflexivity|]); done.
Qed.

Lemma fee_section_cases c st :
  fee_sec c st = (st, []) \/
  (current_fee_state st = INIT /\
   snd (fee_sec c st) = [] /\
   current_fee_state (fst (fee_sec c st)) <> INIT /\
   current_fee_state (fst (fee_sec c st)) <> NORMAL /\
   last_fee_alert_ts (fst (fee_sec c st)) = last_fee_alert_ts st /\
   LAST_MACRO_REPORT_TS (fst (fee_sec c st)) = now c) \/
  (current_fee_state st <> INIT /\
   current_fee_state (fst (fee_sec c st)) <> current_fee_state st /\
   current_fee_state (fst (fee_sec c st)) <> INIT /\
   current_fee_state (fst (fee_sec c st)) <> NORMAL /\
   (ALERT_COOLDOWN < now c - last_fee_alert_ts st)%Q /\
   last_fee_alert_ts (fst (fee_sec c st)) = now c /\
   LAST_MACRO_REPORT_TS (fst (fee_sec c st)) = LAST_MACRO_REPORT_TS st /\
   exists a, snd (fee_sec c st) = [a] /\ is_fee_alert a = true /\
     alert_level a = Some (current_fee_state (fst (fee_sec c st)))).
Proof.
  unfold fee_section.
  destruct (fees c) as [f|]; [|by left].
  destruct (decide (f = ∅)); [by left|].
  set (fee := default 0%Q (f !! "fastestFee"%string)).
  assert (classify fee <> INIT /\ classify fee <> NORMAL) as [Hni Hnn].
  { destruct (CryptoFacts.classify_cases FEE_LOW_THRESHOLD FEE_MED_THRESHOLD fee)
      as [-> | [-> | ->]]; done. }
  destruct (bool_decide (current_fee_state st <> INIT)) eqn:Hinit.
  - apply bool_decide_eq_true in Hinit.
    destruct (bool_decide (classify fee <> current_fee_state st)) eqn:Hdiff.
    + apply bool_decide_eq_true in Hdiff.
      destruct (Num.gtb (now c - last_fee_alert_ts st) ALERT_COOLDOWN) eqn:Hgate.
      * right; right. cbn [andb fst snd current_fee_state last_fee_alert_ts
                           LAST_MACRO_REPORT_TS].
        apply NumFacts.gtb_true in Hgate.
        destruct (fee_message_one (current_fee_state st) fee fee Hdiff)
          as (a & Ha & Hk & Hl).
        repeat split; try done. by exists a.
      * left. cbn [andb]. by rewrite bool_decide_eq_false_2.
    + left. cbn [andb]. by rewrite bool_decide_eq_false_2.
  - apply bool_decide_eq_false in Hinit.
    assert (current_fee_state st = INIT) as Hi.
    { destruct (decide (current_fee_state st = INIT)) as [|Hn];
        [done | by destruct Hinit]. }
    right; left. cbn [andb]. rewrite bool_decide_eq_true_2 by done.
    cbn [fst snd current_fee_state last_fee_alert_ts LAST_MACRO_REPORT_TS]. done.
Qed.

Lemma step_fee_state c st :
  current_fee_state (fst (step c st)) = current_fee_state (fst (fee_sec c st)).
Proof.
  rewrite CryptoFacts.step_state.
  destruct (macro_section_keeps c (fst (price_sec c (fst (fee_sec c st))))) as [-> _].
  by destruct (price_section_keeps c (fst (fee_sec c st))) as [-> _].
Qed.

Lemma step_keeps_levels c st :
  (current_fee_state st <> INIT -> current_fee_state (fst (step c st)) <> INIT) /\
  (current_fee_state st <> NORMAL -> current_fee_state (fst (step c st)) <> NORMAL).
Proof.
  rewrite step_fee_state.
  destruct (fee_section_cases c st)
    as [-> | [(Hi & _ & Hni & Hnn & _) | (Hi & _ & Hni & Hnn & _)]]; done.
Qed.

(** X2.  Over any run of the loop the stored level never goes back to INIT
    once it has left it, and never becomes NORMAL unless it was NORMAL to
    begin with. *)
Theorem fee_state_never_returns (cs : list cycle) (st : state) :
  (current_fee_state st <> INIT -> current_fee_state (fst (run cs st)) <> INIT) /\
  (current_fee_state st <> NORMAL -> current_fee_state (fst (run cs st)) <> NORMAL).
Proof.
  revert st. induction cs as [|c cs IH]; intros st; [done|].
  cbn [surveillance_run].
  pose proof (step_keeps_levels c st) as [H1 H2].
  destruct (step c st) as [st1 a1]. specialize (IH st1).
  destruct (run cs st1) as [st2 a2]. cbn [fst snd] in *.
  destruct IH as [IH1 IH2]. split; auto.
Qed.

(** X3.  From an initialized state the fee section sends a message exactly
    when it changes the stored level: either it changes nothing and sends
    nothing, or it sends one message, the one of the level it has just
    stored, and that level differs from the one before. *)
Theorem fee_alert_iff_level_change (c : cycle) (st : state) :
  current_fee_state st <> INIT ->
  (fee_sec c st = (st, [])) \/
  (current_fee_state (fst (fee_sec c st)) <> current_fee_state st /\
   exists a, snd (fee_sec c st) = [a] /\
     alert_level a = Some (current_fee_state (fst (fee_sec c st)))).
Proof.
  intros Hinit.
  destruct (fee_section_cases c st)
    as [H | [(Hi & _) | (_ & Hdiff & _ & _ & _ & _ & _ & a & Ha & _ & Hl)]].
  - by left.
  - done.
  - right. split; [done|]. by exists a.
Qed.

(** *** The three gates *)

Lemma cooldowns_nonneg :
  (0 <= ALERT_COOLDOWN)%Q /\ (0 <= PRICE_VOLATILITY_COOLDOWN)%Q /\
  (0 <= MACRO_REPORT_COOLDOWN)%Q.
Proof. repeat split; vm_compute; discriminate. Qed.

Lemma filter_not {A : Type} (p : A -> bool) (l : list A) :
  Forall (fun a => p a = false) l -> List.filter p l = [].
Proof. induction 1 as [|a l Ha _ IH]; [done|]. simpl. by rewrite Ha. Qed.

Lemma fee_section_no_other c st :
  List.filter is_volatility_alert (snd (fee_sec c st)) = [] /\
  List.filter is_macro_report (snd (fee_sec c st)) = [].
Proof.
  destruct (fee_section_cases c st)
    as [-> | [(_ & -> & _) | (_ & _ & _ & _ & _ & _ & _ & a & -> & Ha & _)]];
    try done.
  destruct a; try discriminate; done.
Qed.

Lemma price_section_cases c st :
  (snd (price_sec c st) = [] /\
   last_price_volatility_alert_ts (fst (price_sec c st))
     = last_price_volatility_alert_ts st) \/
  (exists a, snd (price_sec c st) = [a; ContextFollowUp (analysis_context c)] /\
     is_volatility_alert a = true /\
     current_fee_state st <> INIT /\
     (PRICE_VOLATILITY_COOLDOWN < now c - last_price_volatility_alert_ts st)%Q /\
     last_price_volatility_alert_ts (fst (price_sec c st)) = now c).
Proof.
  unfold price_section.
  destruct (get_price_data (price_response c)) as [prices|]; [|by left].
  destruct (old_price_lookup _ _) as [old|]; [|by left].
  destruct (_ && _); [|by left].
  unfold volatility_eval. CryptoFacts.state_simpl.
  destruct (bool_decide (current_fee_state st <> INIT)) eqn:Hinit; [|by left].
  destruct (Num.geb _ PRICE_CHANGE_THRESHOLD_LOW); [|by left].
  destruct (Num.gtb _ PRICE_VOLATILITY_COOLDOWN) eqn:Hgate;
    [|cbn [andb]; by left].
  destruct (Num.eqb _ 0); [|by left].
  right. cbn [andb fst snd]. eexists. split; [reflexivity|].
  apply bool_decide_eq_true in Hinit. apply NumFacts.gtb_true in Hgate.
  split; [apply CryptoFacts.volatility_message_kind|]. done.
Qed.


Lemma fee_gate c st :
  gate_step is_fee_alert ALERT_COOLDOWN last_fee_alert_ts (now c) st
    (fst (step c st)) (snd (step c st)) /\
  (List.filter is_fee_alert (snd (step c st)) = [] \/
   (last_fee_alert_ts (fst (step c st)) = now c /\
    exists a, List.filter is_fee_alert (snd (step c st)) = [a])).
Proof.
  unfold gate_step.
  rewrite CryptoFacts.step_state, CryptoFacts.step_sent, !List.filter_app.
  rewrite CryptoFacts.price_section_no_fee_alert, CryptoFacts.macro_section_no_fee_alert.
  rewrite !app_nil_r.
  destruct (macro_section_keeps c (fst (price_sec c (fst (fee_sec c st)))))
    as (_ & -> & _).
  destruct (price_section_keeps c (fst (fee_sec c st))) as (_ & -> & _).
  destruct (fee_section_cases c st)
    as [-> | [(_ & -> & _ & _ & Hl & _) | (_ & _ & _ & _ & Hg & Hl & _ & a & -> & Ha & _)]].
  - cbn [fst snd List.filter]. split; [left; split; [done | by left] | by left].
  - cbn [List.filter]. split; [left; split; [done | by left] | by left].
  - cbn [List.filter]. rewrite Ha. split; right.
    + exists a. done.
    + split; [done|]. by exists a.
Qed.

(** X4.  In any run of the surveillance loop, from any state, two fee
    state-change messages are sent at clock readings more than
    [ALERT_COOLDOWN] apart. *)
Theorem fee_alerts_apart (cs : list cycle) (st : state) :
  pairwise_apart ALERT_COOLDOWN (event_times is_fee_alert (snd (trace cs st))).
Proof.
  apply (GateFacts.timed_run_apart step now is_fee_alert ALERT_COOLDOWN
           last_fee_alert_ts (fun _ => True)).
  - apply cooldowns_nonneg.
  - intros c st' _. split; [done|]. apply fee_gate.
  - intros c st'. destruct (fee_gate c st') as [_ [H | [Hl Ha]]]; [by left|].
    right. done.
Qed.

Lemma volatility_gate c st :
  gate_step is_volatility_alert PRICE_VOLATILITY_COOLDOWN
    last_price_volatility_alert_ts (now c) st (fst (step c st)) (snd (step c st)) /\
  (List.filter is_volatility_alert (snd (step c st)) = [] \/
   (last_price_volatility_alert_ts (fst (step c st)) = now c /\
    exists a, List.filter is_volatility_alert (snd (step c st)) = [a])).
Proof.
  unfold gate_step.
  rewrite CryptoFacts.step_state, CryptoFacts.step_sent, !List.filter_app.
  destruct (fee_section_no_other c st) as [-> _].
  destruct (macro_section_keeps c (fst (price_sec c (fst (fee_sec c st)))))
    as (_ & _ & -> & _).
  assert (List.filter is_volatility_alert
            (snd (macro_section c (fst (price_sec c (fst (fee_sec c st)))))) = [])
    as ->.
  { destruct (CryptoFacts.macro_section_sent c (fst (price_sec c (fst (fee_sec c st)))))
      as [-> | ->]; done. }
  rewrite app_nil_r. cbn [app].
  destruct (fee_section_keeps c st) as (Hts & _).
  rewrite <- Hts.
  destruct (price_section_cases c (fst (fee_sec c st)))
    as [[-> Hl] | (a & -> & Ha & _ & Hg & Hl)].
  - cbn [List.filter]. split; [left; split; [done | by left] | by left].
  - cbn [List.filter is_volatility_alert]. rewrite Ha. split; right.
    + exists a. done.
    + split; [done|]. by exists a.
Qed.

(** X5.  In any run of the surveillance loop, from any state, two
    volatility alerts are sent at clock readings more than
    [PRICE_VOLATILITY_COOLDOWN] (four hours) apart. *)
Theorem volatility_alerts_apart (cs : list cycle) (st : state) :
  pairwise_apart PRICE_VOLATILITY_COOLDOWN
    (event_times is_volatility_alert (snd (trace cs st))).
Proof.
  apply (GateFacts.timed_run_apart step now is_volatility_alert
           PRICE_VOLATILITY_COOLDOWN last_price_volatility_alert_ts (fun _ => True)).
  - apply cooldowns_nonneg.
  - intros c st' _. split; [done|]. apply volatility_gate.
  - intros c st'. destruct (volatility_gate c st') as [_ [H | [Hl Ha]]]; [by left|].
    right. done.
Qed.





(** *** What a volatility alert says *)

(** X7.  A volatility alert is sent only from an initialized fee state; the
    change it reports is the absolute change against the old sample, at
    least the low threshold; the price it reports is the current price,
    positive, and becomes the reference; and it is MAJOR exactly when the
    change is at least the high threshold. *)
Theorem volatility_alert_content (c : cycle) (st : state) (a : alert) :
  a ∈ snd (price_sec c st) -> is_volatility_alert a = true ->
  current_fee_state st <> INIT /\
  exists m ch pct p,
    (a = PriceRiseAlert m ch pct p \/ a = PriceCrashAlert m ch pct p) /\
    (PRICE_CHANGE_THRESHOLD_LOW <= ch)%Q /\ (0 <= ch)%Q /\ (0 < p)%Q /\
    (m = MAJOR <-> (PRICE_CHANGE_THRESHOLD_HIGH <= ch)%Q) /\
    LAST_VOLATILITY_REFERENCE_USD (fst (price_sec c st)) = p.
Proof.
  unfold price_section.
  destruct (get_price_data (price_response c)) as [prices|];
    [|intros H; by apply elem_of_nil in H].
  destruct (old_price_lookup _ _) as [old|];
    [|intros H; by apply elem_of_nil in H].
  destruct (Num.gtb (snd prices) 0) eqn:Hcur;
    [|intros H; by apply elem_of_nil in H].
  destruct (Num.gtb (usd old) 0) eqn:Hold;
    [|intros H; by apply elem_of_nil in H].
  cbn [andb]. unfold volatility_eval. CryptoFacts.state_simpl.
  destruct (bool_decide (current_fee_state st <> INIT)) eqn:Hinit;
    [|intros H; by apply elem_of_nil in H].
  destruct (Num.geb _ PRICE_CHANGE_THRESHOLD_LOW) eqn:Hlow;
    [|intros H; by apply elem_of_nil in H].
  destruct (Num.gtb _ PRICE_VOLATILITY_COOLDOWN);
    [|intros H; by apply elem_of_nil in H].
  destruct (Num.eqb _ 0); [|intros H; by apply elem_of_nil in H].
  cbn [andb fst snd with_volatility_alert LAST_VOLATILITY_REFERENCE_USD].
  apply bool_decide_eq_true in Hinit. num_prop.
  intros Hin Hkind. split; [done|].
  apply elem_of_cons in Hin as [-> | Hin];
    [|apply list_elem_of_singleton in Hin; subst; discriminate].
  clear Hkind. unfold volatility_message.
  set (change := (snd prices - usd old)%Q) in *.
  destruct (Num.gtb change 0) eqn:Hdir; num_prop.
  - pose proof (Qabs_pos change) as Habs.
    destruct (Num.geb change PRICE_CHANGE_THRESHOLD_HIGH) eqn:Hhigh; num_prop;
      do 4 eexists; (split; [left; reflexivity|]);
      repeat split; try done; try lra; intros; try discriminate; lra.
  - pose proof (Qabs_neg change Hdir) as Habs.
    destruct (Num.geb (Qabs change) PRICE_CHANGE_THRESHOLD_HIGH) eqn:Hhigh; num_prop;
      do 4 eexists; (split; [right; reflexivity|]);
      repeat split; try done; try lra; intros; try discriminate; lra.
Qed.

(** *** The rolling price history *)

Lemma filter_snoc {A : Type} (p : A -> bool) (l : list A) (x : A) :
  List.filter p (l ++ [x]) = List.filter p l ++ (if p x then [x] else []).
Proof. by rewrite List.filter_app. Qed.

Lemma filter_chronological (p : price_entry -> bool) (h : list price_entry) :
  chronological h -> chronological (List.filter p h).
Proof.
  unfold chronological. induction 1 as [|d h Hs IH Hall]; simpl; [constructor|].
  destruct (p d); [|done]. constructor; [done|].
  rewrite Forall_forall in *. intros e He.
  apply Hall. apply list_elem_of_In, List.filter_In in He as [He _].
  by apply list_elem_of_In.
Qed.

(** X8.  After [update_price_history] every entry kept is younger than four
    hours against the pruning clock and is the new sample or an entry that
    was there; no entry younger than four hours is lost; the new sample,
    when younger than four hours, is the last entry; and a history in
    time order stays in time order when the new stamp is not before the
    entries already there. *)
Theorem update_price_history_window (new_prices : Q * Q) (stamp prune_clock : Q)
    (h : list price_entry) :
  (forall d, d ∈ update_price_history new_prices stamp prune_clock h ->
     (prune_clock - 4 * 3600 < time d)%Q /\
     (d ∈ h \/ d = {| eur := fst new_prices; usd := snd new_prices; time := stamp |})) /\
  (forall d, d ∈ h -> (prune_clock - 4 * 3600 < time d)%Q ->
     d ∈ update_price_history new_prices stamp prune_clock h) /\
  ((prune_clock - 4 * 3600 < stamp)%Q ->
     last (update_price_history new_prices stamp prune_clock h)
       = Some {| eur := fst new_prices; usd := snd new_prices; time := stamp |}) /\
  (chronological h -> (forall d, d ∈ h -> (time d <= stamp)%Q) ->
     chronological (update_price_history new_prices stamp prune_clock h)).
Proof.
  unfold update_price_history. repeat split.
  - apply list_elem_of_In, List.filter_In in H as [_ H]. by apply NumFacts.gtb_true.
  - apply list_elem_of_In, List.filter_In in H as [H _].
    apply list_elem_of_In, elem_of_app in H as [H | H]; [by left|].
    right. by apply list_elem_of_singleton in H.
  - intros d Hd Hyoung. apply list_elem_of_In, List.filter_In. split.
    + apply list_elem_of_In, elem_of_app. by left.
    + by apply NumFacts.gtb_true.
  - intros Hyoung. rewrite filter_snoc. cbn [time].
    apply NumFacts.gtb_true in Hyoung. rewrite Hyoung. apply last_snoc.
  - intros Hs Hbefore. apply filter_chronological.
    unfold chronological. apply StronglySorted_app_2; [|done|].
    + intros d e Hd He. apply list_elem_of_singleton in He. subst. by apply Hbefore.
    + repeat constructor.
Qed.

End Thresholds.

Lemma classify_fee_bands_witness :
  (3 <= 12)%Q /\
  (severity (classify_fee 5 10 3) <= severity (classify_fee 5 10 12))%nat.
Proof.
  assert ((3 <= 12)%Q) as Hle by (vm_compute; discriminate).
  split; [exact Hle|].
  exact (proj2 (classify_fee_bands 5 10) 3%Q 12%Q Hle).
Defined.

Lemma fee_state_never_returns_witness :
  current_fee_state (running LOW t0 0 0 t0 []) <> INIT /\
  current_fee_state
    (fst (surveillance_run 5 10 1000 3000
            [fee_cycle (t0 + 400) 12; fee_cycle (t0 + 800) 3]
            (running LOW t0 0 0 t0 []))) <> INIT.
Proof.
  split; [discriminate|].
  apply (fee_state_never_returns 5 10 1000 3000
           [fee_cycle (t0 + 400) 12; fee_cycle (t0 + 800) 3]
           (running LOW t0 0 0 t0 [])).
  discriminate.
Defined.

Lemma fee_alert_iff_level_change_witness :
  current_fee_state (running LOW t0 0 0 t0 []) <> INIT /\
  snd (fee_section 5 10 (fee_cycle (t0 + 400) 12) (running LOW t0 0 0 t0 []))
    = [FeeHighAlert 12] /\
  (fee_section 5 10 (fee_cycle (t0 + 400) 12) (running LOW t0 0 0 t0 [])
     = (running LOW t0 0 0 t0 [], []) \/
   current_fee_state
     (fst (fee_section 5 10 (fee_cycle (t0 + 400) 12) (running LOW t0 0 0 t0 [])))
     <> current_fee_state (running LOW t0 0 0 t0 []) /\
   exists a,
     snd (fee_section 5 10 (fee_cycle (t0 + 400) 12) (running LOW t0 0 0 t0 [])) = [a] /\
     alert_level a
       = Some (current_fee_state
                 (fst (fee_section 5 10 (fee_cycle (t0 + 400) 12)
                         (running LOW t0 0 0 t0 []))))).
Proof.
  split; [discriminate|]. split; [reflexivity|].
  apply (fee_alert_iff_level_change 5 10 (fee_cycle (t0 + 400) 12)
           (running LOW t0 0 0 t0 [])).
  discriminate.
Defined.

Lemma volatility_alert_content_witness :
  PriceRiseAlert SIGNIFICANT 1500 (1500 / 60000 * 100) 61500
    ∈ snd (price_section 1000 3000 (price_cycle (t0 + 10000) 61500)
             (running LOW 0 0 0 t0 [entry 60000 t0])) /\
  current_fee_state (running LOW 0 0 0 t0 [entry 60000 t0]) <> INIT.
Proof.
  assert (PriceRiseAlert SIGNIFICANT 1500 (1500 / 60000 * 100) 61500
            ∈ snd (price_section 1000 3000 (price_cycle (t0 + 10000) 61500)
                     (running LOW 0 0 0 t0 [entry 60000 t0]))) as Hin.
  { vm_compute. apply elem_of_cons. by left. }
  split; [exact Hin|].
  exact (proj1 (volatility_alert_content 1000 3000 _ _ _ Hin eq_refl)).
Defined.

Lemma update_price_history_window_witness :
  chronological [entry 60000 t0] /\
  chronological (update_price_history (61500, 61500)%Q (t0 + 300) (t0 + 300)
                   [entry 60000 t0]) /\
  last (update_price_history (61500, 61500)%Q (t0 + 300) (t0 + 300) [entry 60000 t0])
    = Some (entry 61500 (t0 + 300)).
Proof.
  assert (chronological [entry 60000 t0]) as Hs by (repeat constructor).
  destruct (update_price_history_window (61500, 61500)%Q (t0 + 300) (t0 + 300)
              [entry 60000 t0]) as (_ & _ & Hlast & Hchron).
  split; [exact Hs|]. split.
  - apply Hchron; [exact Hs|].
    intros d Hd. apply list_elem_of_singleton in Hd. subst.
    vm_compute. discriminate.
  - apply Hlast. reflexivity.
Defined.

End MarketFacts.

(** ** The fee history and the contextual analysis *)

Module FeeHistoryFacts.
Import FeeHistory.

Lemma keep_since_app cutoff h d t :
  d !! "time"%string = Some t ->
  keep_since cutoff (h ++ [d]) =
    match keep_since cutoff h with
    | Some rest => Some (rest ++ (if Num.gtb t cutoff then [d] else []))
    | None => None
    end.
Proof.
  intros Hd. induction h as [|e h IH]; simpl.
  - rewrite Hd. by destruct (Num.gtb t cutoff).
  - destruct (e !! "time"%string) as [te|]; [|done].
    rewrite IH. destruct (keep_since cutoff h) as [rest|]; [|done].
    by destruct (Num.gtb te cutoff).
Qed.

Lemma keep_since_stamped cutoff0 cutoff h :
  Forall (stamped_since cutoff0) h ->
  exists rest, keep_since cutoff h = Some rest /\
    Forall (stamped_since cutoff) rest /\
    (forall d, d ∈ rest -> d ∈ h).
Proof.
  induction 1 as [|d h (t & Hd & _) _ (rest & Hrest & Hall & Hsub)]; simpl.
  - exists []. done.
  - rewrite Hd, Hrest. destruct (Num.gtb t cutoff) eqn:Ht.
    + exists (d :: rest). split; [done|]. split.
      * constructor; [|done]. exists t. split; [done|]. by apply NumFacts.gtb_true.
      * intros e He. apply elem_of_cons in He as [-> | He];
          apply elem_of_cons; [by left | right; by apply Hsub].
    + exists rest. split; [done|]. split; [done|].
      intros e He. apply elem_of_cons. right. by apply Hsub.
Qed.

Lemma update_fee_history_stamped cutoff0 new_fees stamp prune_clock h :
  Forall (stamped_since cutoff0) h ->
  exists h', update_fee_history new_fees stamp prune_clock h
               = Some (stamp_fees new_fees stamp, h') /\
    Forall (stamped_since (prune_clock - 3600)) h'.
Proof.
  intros Hall. unfold update_fee_history.
  assert (Forall (stamped_since (Qmin cutoff0 (stamp - 1)))
            (h ++ [stamp_fees new_fees stamp])) as Hall'.
  { apply Forall_app. split.
    - eapply Forall_impl; [exact Hall|]. intros d (t & Hd & Ht).
      exists t. split; [done|]. pose proof (Q.le_min_l cutoff0 (stamp - 1)). lra.
    - constructor; [|done]. exists stamp. split.
      + unfold stamp_fees. apply lookup_insert_eq.
      + pose proof (Q.le_min_r cutoff0 (stamp - 1)). lra. }
  destruct (keep_since_stamped _ (prune_clock - 3600) _ Hall')
    as (rest & -> & Hrest & _).
  by exists rest.
Qed.

(** X9.  Stamping a fee sample changes no key but ['time'], so the
    [fastestFee] read after it is the one fetched; on a history whose
    entries all carry a time the update succeeds and leaves only entries
    stamped later than the pruning clock minus one hour; and a history built
    from the empty one by updates alone never raises the [KeyError]. *)
Theorem update_fee_history_sound :
  (forall new_fees stamp key, key <> "time"%string ->
     stamp_fees new_fees stamp !! key = new_fees !! key) /\
  (forall cutoff0 new_fees stamp prune_clock h,
     Forall (stamped_since cutoff0) h ->
     exists h', update_fee_history new_fees stamp prune_clock h
                  = Some (stamp_fees new_fees stamp, h') /\
       Forall (stamped_since (prune_clock - 3600)) h') /\
  (forall samples, is_Some (fee_history_run samples [])).
Proof.
  split; [|split].
  - intros new_fees stamp key Hkey. unfold stamp_fees. by rewrite lookup_insert_ne.
  - apply update_fee_history_stamped.
  - intros samples.
    assert (forall h cutoff, Forall (stamped_since cutoff) h ->
              is_Some (fee_history_run samples h)) as Hgen.
    { induction samples as [|[[new_fees stamp] prune_clock] samples IH];
        intros h cutoff Hall; [by eexists|].
      cbn [fee_history_run].
      destruct (update_fee_history_stamped cutoff new_fees stamp prune_clock h Hall)
        as (h' & -> & Hall').
      by apply (IH h' (prune_clock - 3600)%Q). }
    by apply (Hgen [] 0%Q).
Qed.

Lemma update_fee_history_sound_witness :
  Forall (stamped_since 0) [stamp_fees {[ "fastestFee"%string := 12%Q ]} 1700000000] /\
  exists h',
    update_fee_history {[ "fastestFee"%string := 3%Q ]} 1700000300 1700000300
      [stamp_fees {[ "fastestFee"%string := 12%Q ]} 1700000000]
      = Some (stamp_fees {[ "fastestFee"%string := 3%Q ]} 1700000300, h') /\
    Forall (stamped_since (1700000300 - 3600)) h'.
Proof.
  assert (Forall (stamped_since 0)
            [stamp_fees {[ "fastestFee"%string := 12%Q ]} 1700000000]) as Hall.
  { constructor; [|done]. exists 1700000000%Q. split; reflexivity. }
  split; [exact Hall|].
  destruct update_fee_history_sound as (_ & Hupdate & _).
  exact (Hupdate 0%Q _ _ _ _ Hall).
Defined.

End FeeHistoryFacts.

Module AnalysisFacts.
Import Crypto Analysis.

(** [str_contains] is Python's [in]: the needle occurs between some prefix
    and some suffix. *)
Lemma str_prefix_spec p s :
  str_prefix p s = true <-> exists b, s = (p +:+ b)%string.
Proof.
  revert s. induction p as [|a p IH]; intros s; simpl.
  - split; [intros _; by exists s | done].
  - destruct s as [|b s]; simpl.
    + split; [done | intros [? ?]; done].
    + destruct (Ascii.eqb a b) eqn:Hab.
      * apply Ascii.eqb_eq in Hab. subst. rewrite IH.
        split; intros [r Hr]; exists r; [by rewrite Hr | by injection Hr].
      * apply Ascii.eqb_neq in Hab.
        split; [done | intros [r Hr]; injection Hr; congruence].
Qed.

Lemma str_contains_spec needle s :
  str_contains needle s = true <->
  exists a b, s = (a +:+ needle +:+ b)%string.
Proof.
  induction s as [|ch s IH]; cbn [str_contains];
    rewrite orb_true_iff, str_prefix_spec.
  - split.
    + intros [[b Hb] | ?]; [|done]. by exists ""%string, b.
    + intros (a & b & Hab). left. destruct a; [by exists b | done].
  - rewrite IH. split.
    + intros [[b Hb] | (a & b & Hab)].
      * by exists ""%string, b.
      * exists (String ch a), b. simpl. by rewrite Hab.
    + intros (a & b & Hab). destruct a as [|ch' a]; simpl in Hab.
      * left. by exists b.
      * right. injection Hab as _ Hab. by exists a, b.
Qed.

(** X10.  A periodic report is posted exactly when the fee state is
    initialized, more than [MACRO_REPORT_COOLDOWN] has passed since the
    timer was set, and the analysis text contains neither of the two
    sentinel texts anywhere; the timer is set to the current clock whenever
    the first two conditions hold, posted or not. *)
Theorem macro_report_posted_iff (c : cycle) (st : state) :
  (MacroReport (macro_context c) ∈ snd (macro_section c st) <->
   current_fee_state st <> INIT /\
   (MACRO_REPORT_COOLDOWN < now c - LAST_MACRO_REPORT_TS st)%Q /\
   ~ (exists a b, macro_context c
        = (a +:+ "Contextual Analysis Failed" +:+ b)%string) /\
   ~ (exists a b, macro_context c
        = (a +:+ "NESSUN AGGIORNAMENTO MACRO SIGNIFICATIVO" +:+ b)%string)) /\
  (current_fee_state st <> INIT ->
   (MACRO_REPORT_COOLDOWN < now c - LAST_MACRO_REPORT_TS st)%Q ->
   LAST_MACRO_REPORT_TS (fst (macro_section c st)) = now c).
Proof.
  unfold macro_section.
  destruct (bool_decide (current_fee_state st <> INIT)) eqn:Hinit;
    [apply bool_decide_eq_true in Hinit | apply bool_decide_eq_false in Hinit].
  2:{ cbn [andb snd]. split; [|done]. split.
      - intros H. by apply elem_of_nil in H.
      - intros (? & _). done. }
  destruct (Num.gtb _ MACRO_REPORT_COOLDOWN) eqn:Hgate; num_prop.
  2:{ cbn [andb snd]. split; [|intros; lra]. split.
      - intros H. by apply elem_of_nil in H.
      - intros (_ & ? & _). lra. }
  cbn [andb fst snd with_macro_ts LAST_MACRO_REPORT_TS]. split; [|done].
  rewrite <- !str_contains_spec.
  destruct (str_contains "Contextual Analysis Failed" (macro_context c));
    destruct (str_contains "NESSUN AGGIORNAMENTO MACRO SIGNIFICATIVO" (macro_context c));
    cbn [negb andb]; split;
    try (intros H; by apply elem_of_nil in H);
    try (intros (_ & _ & H1 & H2); done).
  - intros _. done.
  - intros _. by apply list_elem_of_singleton.
Qed.

(** X11.  When the request of the analysis fails (status 403 or any
    exception) the text returned carries the first sentinel, so the macro
    section never posts it, while the follow-up of a volatility alert
    forwards whatever text it is given. *)
Theorem failed_analysis_never_posted (o : outcome) (c : cycle) (st : state) :
  snd (perform_contextual_analysis o) <> None ->
  macro_context c = fst (perform_contextual_analysis o) ->
  snd (macro_section c st) = [] /\
  str_contains "Contextual Analysis Failed" (fst (perform_contextual_analysis o)) = true.
Proof.
  intros Herr Hctx.
  assert (str_contains "Contextual Analysis Failed"
            (fst (perform_contextual_analysis o)) = true) as Hfail.
  { destruct o as [|e|text attributions]; [by vm_compute | by vm_compute |].
    simpl in Herr. done. }
  split; [|done]. unfold macro_section. rewrite Hctx, Hfail.
  by destruct (_ && _).
Qed.

Lemma failed_analysis_never_posted_witness :
  snd (perform_contextual_analysis (RequestFailed "timeout")) <> None /\
  snd (macro_section
         {| now := 1700090000; fees := None; price_response := None;
            price_stamp := 1700090000; price_prune_clock := 1700090000;
            analysis_context := "";
            macro_context := fst (perform_contextual_analysis (RequestFailed "timeout")) |}
         (running LOW 0 0 0 1700000000 [])) = [].
Proof.
  split; [discriminate|].
  apply (failed_analysis_never_posted (RequestFailed "timeout")
           {| now := 1700090000; fees := None; price_response := None;
              price_stamp := 1700090000; price_prune_clock := 1700090000;
              analysis_context := "";
              macro_context := fst (perform_contextual_analysis (RequestFailed "timeout")) |}
           (running LOW 0 0 0 1700000000 [])).
  - discriminate.
  - reflexivity.
Defined.

End AnalysisFacts.

(** ** The debouncers inside the monitoring loop *)

Module HardwareFacts.
Import Sentinel Hardware Gate.

Section Streak.

Variable q : quantity.
Variable threshold : Q.

Lemma debounce_run_app l1 l2 d :
  fst (debounce_run q threshold (l1 ++ l2) d)
    = fst (debounce_run q threshold l2 (fst (debounce_run q threshold l1 d))).
Proof.
  revert d. induction l1 as [|[now_ x] l1 IH]; intros d; [done|].
  rewrite <- app_comm_cons, !SentinelFacts.debounce_run_cons. cbn [fst]. apply IH.
Qed.

Lemma count_after_sample now_ x d :
  high_count (fst (persistence_step q threshold x x now_ d))
    = if Num.geb x threshold then S (high_count d) else 0%nat.
Proof.
  unfold persistence_step. destruct (Num.geb x threshold);
    by destruct (_ && _).
Qed.

Lemma count_snoc pre now_ x d :
  high_count (fst (debounce_run q threshold (pre ++ [(now_, x)]) d))
    = if Num.geb x threshold
      then S (high_count (fst (debounce_run q threshold pre d))) else 0%nat.
Proof.
  rewrite debounce_run_app, SentinelFacts.debounce_run_cons. cbn [fst debounce_run].
  apply count_after_sample.
Qed.

Lemma count_two_in_a_row pre d :
  high_count d = 0%nat ->
  (2 <= high_count (fst (debounce_run q threshold pre d)))%nat ->
  exists pre' s1 s2, pre = pre' ++ [s1; s2] /\ over threshold s1 /\ over threshold s2.
Proof.
  intros Hzero.
  destruct pre as [|s pre0 _] using rev_ind; [simpl; lia|].
  destruct s as [now2 x2]. rewrite count_snoc.
  destruct (Num.geb x2 threshold) eqn:H2; [|lia]. intros Hcount.
  destruct pre0 as [|s pre' _] using rev_ind; [simpl in Hcount; lia|].
  destruct s as [now1 x1]. rewrite count_snoc in Hcount.
  destruct (Num.geb x1 threshold) eqn:H1; [|lia].
  exists pre', (now1, x1), (now2, x2). rewrite <- app_assoc. num_prop. done.
Qed.

(** X12.  Counting from zero, a rising alert is sent on a sample only if
    that sample and the two samples before it are all over the threshold:
    fewer than three readings, or a reading under the threshold among the
    last three, never alert. *)
Theorem rising_needs_three_in_a_row (pre : list (Q * Q)) (now_ x : Q) (d : debouncer) :
  high_count d = 0%nat ->
  RisingAlert q x
    ∈ snd (persistence_step q threshold x x now_ (fst (debounce_run q threshold pre d))) ->
  exists pre' s1 s2,
    pre = pre' ++ [s1; s2] /\
    over threshold s1 /\ over threshold s2 /\ (threshold <= x)%Q.
Proof.
  intros Hzero Hsent.
  apply SentinelFacts.rising_sent_iff in Hsent as (Hx & Hcount & _).
  unfold PERSISTENCE_COUNT in Hcount.
  destruct (count_two_in_a_row pre d Hzero) as (pre' & s1 & s2 & Hpre & H1 & H2);
    [lia|].
  exists pre', s1, s2. done.
Qed.

End Streak.

Lemma rising_needs_three_in_a_row_witness :
  high_count fresh = 0%nat /\
  exists pre' s1 s2,
    [(t0, 85); (t0 + 60, 85)]%Q = pre' ++ [s1; s2] /\
    over 80 s1 /\ over 80 s2 /\ (80 <= 85)%Q.
Proof.
  split; [reflexivity|].
  apply (rising_needs_three_in_a_row CPU 80 [(t0, 85); (t0 + 60, 85)]%Q
           (t0 + 120) 85 fresh).
  - reflexivity.
  - vm_compute. apply elem_of_cons. by left.
Defined.

Section Loop.

Variables CPU_THRESHOLD_PCT RAM_THRESHOLD_PCT LOAD_PER_CORE_THRESHOLD : Q.
Variable DISK_THRESHOLD_PCT : Q.

Local Abbreviation hw_section :=
  (hardware_section CPU_THRESHOLD_PCT RAM_THRESHOLD_PCT LOAD_PER_CORE_THRESHOLD
     DISK_THRESHOLD_PCT).
Local Abbreviation mrun :=
  (monitor_run CPU_THRESHOLD_PCT RAM_THRESHOLD_PCT LOAD_PER_CORE_THRESHOLD
     DISK_THRESHOLD_PCT).
Local Abbreviation threshold :=
  (threshold_of CPU_THRESHOLD_PCT RAM_THRESHOLD_PCT LOAD_PER_CORE_THRESHOLD).

Lemma disk_loop_no_rising q now_ remote_alerts last :
  List.filter (is_rising q) (snd (disk_loop now_ remote_alerts last)) = [].
Proof.
  revert last.
  induction remote_alerts as [|[[mount pct] used_] rest IH]; intros last; [done|].
  cbn [disk_loop]. destruct (Num.gtb _ _); [|apply IH].
  specialize (IH (<[("remote_" +:+ mount)%string := now_]> last)).
  by destruct (disk_loop now_ rest _) as [last' sent].
Qed.

Lemma persistence_step_rising q q' thr x r now_ d :
  List.filter (is_rising q') (snd (persistence_step q thr x r now_ d))
    = if decide (q = q')
      then List.filter (is_rising q) (snd (persistence_step q thr x r now_ d))
      else [].
Proof.
  destruct (decide (q = q')) as [-> | Hne]; [done|].
  unfold persistence_step.
  destruct (Num.geb x thr); destruct (is_alert_active d); destruct (_ && _);
    simpl; rewrite ?bool_decide_eq_false_2 by done; done.
Qed.

Ltac split_hardware_section H1 H2 H3 H4 :=
  destruct (persistence_step CPU _ _ _ _ _) as [? ?];
  destruct (persistence_step RAM _ _ _ _ _) as [? ?];
  destruct (persistence_step LOAD _ _ _ _ _) as [? ?];
  destruct (disk_loop _ _ _) as [? ?];
  cbn [fst snd] in *; rewrite !List.filter_app, H1, H2, H3, H4;
  simpl; by rewrite ?app_nil_r.



Ltac rising_quantity qq c st rd :=
  let H1 := fresh in let H2 := fresh in let H3 := fresh in let H4 := fresh in
  pose proof (persistence_step_rising CPU qq CPU_THRESHOLD_PCT
                (cpu_pct rd) (cpu_pct rd) (now c) (cpu st)) as H1;
  pose proof (persistence_step_rising RAM qq RAM_THRESHOLD_PCT
                (ram_pct rd) (ram_pct rd) (now c) (ram st)) as H2;
  pose proof (persistence_step_rising LOAD qq LOAD_PER_CORE_THRESHOLD
                (load1 rd / cores rd) (load1 rd) (now c) (load st)) as H3;
  pose proof (disk_loop_no_rising qq (now c)
                (alert_data DISK_THRESHOLD_PCT (df_rows c))
                (last_remote_disk_alert st)) as H4;
  split_hardware_section H1 H2 H3 H4.

Lemma hardware_section_rising q c st rd :
  hardware c = Some rd ->
  List.filter (is_rising q) (snd (hw_section c st))
    = List.filter (is_rising q)
        (snd (persistence_step q (threshold q) (measured q rd) (reading q rd)
                (now c) (debouncer_of q st))).
Proof.
  intros Hhw. unfold hardware_section. rewrite Hhw.
  destruct q; cbn [debouncer_of threshold_of measured reading];
    [rising_quantity CPU c st rd | rising_quantity RAM c st rd
     | rising_quantity LOAD c st rd].
Qed.

Lemma hardware_section_state q c st rd :
  hardware c = Some rd ->
  debouncer_of q (fst (hw_section c st))
    = fst (persistence_step q (threshold q) (measured q rd) (reading q rd)
             (now c) (debouncer_of q st)).
Proof.
  intros Hhw. unfold hardware_section. rewrite Hhw.
  destruct q; cbn [debouncer_of threshold_of measured reading];
    destruct (persistence_step CPU _ _ _ _ _) as [? ?];
    destruct (persistence_step RAM _ _ _ _ _) as [? ?];
    destruct (persistence_step LOAD _ _ _ _ _) as [? ?];
    by destruct (disk_loop _ _ _) as [? ?].
Qed.

Lemma persistence_step_gate q thr x r now_ d :
  gate_step (is_rising q) cooldown last_remote_alert now_ d
    (fst (persistence_step q thr x r now_ d))
    (snd (persistence_step q thr x r now_ d)) /\
  (List.filter (is_rising q) (snd (persistence_step q thr x r now_ d)) = [] \/
   (last_remote_alert (fst (persistence_step q thr x r now_ d)) = now_ /\
    exists a, List.filter (is_rising q)
                (snd (persistence_step q thr x r now_ d)) = [a])).
Proof.
  unfold gate_step, persistence_step.
  destruct (Num.geb x thr); destruct (is_alert_active d);
    cbn [negb andb]; rewrite ?andb_false_r; cbn [fst snd last_remote_alert app];
    try (simpl; split; [left; split; [done | by left] | by left]).
  - destruct (PERSISTENCE_COUNT <=? S (high_count d))%nat; cbn [andb];
      [|simpl; split; [left; split; [done | by left] | by left]].
    destruct (Num.gtb _ cooldown) eqn:Hgate;
      [|simpl; split; [left; split; [done | by left] | by left]].
    apply NumFacts.gtb_true in Hgate. simpl.
    rewrite bool_decide_eq_true_2 by done.
    split; right; [eexists; done|]. split; [done|]. by eexists.
Qed.

Lemma monitor_run_timed cs st :
  mrun cs st = timed_run hw_section now cs st.
Proof.
  revert st. induction cs as [|c cs IH]; intros st; [done|].
  cbn [monitor_run timed_run]. destruct (hw_section c st) as [st1 a1].
  by rewrite IH.
Qed.

Lemma hardware_gate q c st :
  gate_step (is_rising q) cooldown (fun s => last_remote_alert (debouncer_of q s))
    (now c) st (fst (hw_section c st)) (snd (hw_section c st)) /\
  (List.filter (is_rising q) (snd (hw_section c st)) = [] \/
   (last_remote_alert (debouncer_of q (fst (hw_section c st))) = now c /\
    exists a, List.filter (is_rising q) (snd (hw_section c st)) = [a])).
Proof.
  destruct (hardware c) as [rd|] eqn:Hhw.
  - unfold gate_step. rewrite (hardware_section_rising q c st rd Hhw).
    rewrite (hardware_section_state q c st rd Hhw).
    apply persistence_step_gate.
  - unfold gate_step, hardware_section. rewrite Hhw. cbn [fst snd List.filter].
    split; [left; split; [done | by left] | by left].
Qed.

(** X14.  In any run of the monitoring loop, from any state, two rising
    alerts of one quantity (CPU, RAM or load) are sent at clock readings
    more than the cooldown apart. *)
Theorem rising_alerts_apart (q : quantity) (cs : list cycle) (st : state) :
  pairwise_apart cooldown (event_times (is_rising q) (snd (mrun cs st))).
Proof.
  rewrite monitor_run_timed.
  apply (GateFacts.timed_run_apart hw_section now (is_rising q) cooldown
           (fun s => last_remote_alert (debouncer_of q s)) (fun _ => True)).
  - apply SentinelFacts.cooldown_nonneg.
  - intros c st' _. split; [done|]. apply hardware_gate.
  - intros c st'. destruct (hardware_gate q c st') as [_ [H | [Hl Ha]]]; [by left|].
    right. done.
Qed.

End Loop.


End HardwareFacts.

(** ** Service status *)

Module ServicesFacts.
Import Services Gate.

Lemma cooldown_closed now_ : Num.gtb (now_ - now_) cooldown = false.
Proof. apply NumFacts.gtb_false. unfold cooldown. lra. Qed.

(** The outcomes of one check. *)
Lemma service_check_cases svc current last_status now_ ts :
  (service_check svc current last_status now_ ts = (last_status, ts, [])) \/
  (current <> last_status /\ (cooldown < now_ - ts)%Q /\
   ((service_check svc current last_status now_ ts = (current, ts, []) /\
     current <> "INACTIVE"%string /\ current <> "FAILED"%string) \/
    (service_check svc current last_status now_ ts
       = (current, now_, [ServiceDown svc current]) /\
     (current = "INACTIVE"%string \/ current = "FAILED"%string)) \/
    (service_check svc current last_status now_ ts
       = (current, now_, [ServiceUp svc current]) /\
     current = "ACTIVE"%string /\ last_status <> "UNKNOWN"%string))).
Proof.
  unfold service_check.
  destruct (bool_decide (current <> last_status)) eqn:Hdiff; [|by left].
  destruct (Num.gtb (now_ - ts) cooldown) eqn:Hgate; [|by left].
  apply bool_decide_eq_true in Hdiff. apply NumFacts.gtb_true in Hgate.
  right. split; [done|]. split; [done|]. cbn [andb].
  destruct (bool_decide (current = "INACTIVE"%string)) eqn:H1.
  { apply bool_decide_eq_true in H1. right; left. split; [done | by left]. }
  destruct (bool_decide (current = "FAILED"%string)) eqn:H2.
  { apply bool_decide_eq_true in H2. right; left. split; [done | by right]. }
  apply bool_decide_eq_false in H1, H2. cbn [orb].
  destruct (bool_decide (current = "ACTIVE"%string)) eqn:H3; [|by left].
  destruct (bool_decide (last_status <> "UNKNOWN"%string)) eqn:H4; [|by left].
  apply bool_decide_eq_true in H3, H4. right; right. done.
Qed.

Lemma service_check_closed svc current last_status now_ :
  service_check svc current last_status now_ now_ = (last_status, now_, []).
Proof. unfold service_check. by rewrite cooldown_closed, andb_false_r. Qed.

(** Settles the three parts of the statement below once the messages of
    the iteration are known. *)
Ltac sound_case :=
  cbn [fst snd app length];
  split; [|split; [simpl; lia|]];
  [ intros a Ha;
    first [ by apply elem_of_nil in Ha
          | apply list_elem_of_singleton in Ha; subst a; simpl;
            repeat split; first [done | congruence] ]
  | let Hwho := fresh "Hwho" in
    intros a Ha (s & Hwho);
    first [ by apply elem_of_nil in Ha
          | apply list_elem_of_singleton in Ha; subst a;
            destruct Hwho as [Hwho | Hwho]; first [discriminate Hwho | done] ] ].

Section Upper.

Variable upper : string -> string.

Local Abbreviation section := (service_section upper).

(** X15.  Every service message announces the status just stored for its
    service, which differs from the one stored before: SERVICE DOWN for
    INACTIVE or FAILED, SERVICE UP for ACTIVE and never from the startup
    status UNKNOWN; the alert time is then the clock of the iteration; and
    an iteration sends at most one message, so when the LND check sends one
    the Bitcoin status is left as stored, to be compared again later. *)
Theorem service_messages_sound (c : cycle) (st : state) :
  (forall a, a ∈ snd (section c st) ->
     announces a st (fst (section c st)) /\
     last_service_alert_ts (fst (section c st)) = now c) /\
  (length (snd (section c st)) <= 1)%nat /\
  (forall a, a ∈ snd (section c st) ->
     (exists s, a = ServiceDown LND s \/ a = ServiceUp LND s) ->
     last_btc_service_status (fst (section c st)) = last_btc_service_status st).
Proof.
  unfold service_section.
  destruct (statuses c) as [l|]; [|sound_case].
  set (lnd := status_at upper 0 l). set (btc := status_at upper 1 l).
  destruct (service_check_cases LND lnd (last_lnd_service_status st) (now c)
              (last_service_alert_ts st))
    as [-> | (Hd & Hg & [[-> _] | [[-> Hs] | [-> [Hs Hu]]]])].
  1,2: destruct (service_check_cases BITCOIN btc (last_btc_service_status st) (now c)
                (last_service_alert_ts st))
      as [-> | (Hd' & Hg' & [[-> _] | [[-> Hs'] | [-> [Hs' Hu']]]])];
      sound_case.
  all: rewrite service_check_closed; sound_case.
Qed.

Lemma service_gate c st :
  gate_step any_alert cooldown last_service_alert_ts (now c) st
    (fst (section c st)) (snd (section c st)) /\
  (List.filter any_alert (snd (section c st)) = [] \/
   (last_service_alert_ts (fst (section c st)) = now c /\
    exists a, List.filter any_alert (snd (section c st)) = [a])).
Proof.
  unfold gate_step, service_section.
  destruct (statuses c) as [l|];
    [|cbn [fst snd List.filter]; split; [left; split; [done | by left] | by left]].
  set (lnd := status_at upper 0 l). set (btc := status_at upper 1 l).
  destruct (service_check_cases LND lnd (last_lnd_service_status st) (now c)
              (last_service_alert_ts st))
    as [-> | (Hd & Hg & [[-> _] | [[-> Hs] | [-> [Hs Hu]]]])].
  1,2: destruct (service_check_cases BITCOIN btc (last_btc_service_status st) (now c)
                (last_service_alert_ts st))
      as [-> | (Hd' & Hg' & [[-> _] | [[-> Hs'] | [-> [Hs' Hu']]]])];
      cbn [fst snd app last_service_alert_ts List.filter any_alert];
      first [ split; [left; split; [done | by left] | by left]
            | split; right; [eexists; done | split; [done | by eexists]] ].
  all: rewrite service_check_closed;
    cbn [fst snd app last_service_alert_ts List.filter any_alert];
    split; right; [eexists; done | split; [done | by eexists]].
Qed.

(** X16.  In any run of the service checks, from any state, two service
    messages, of either service, are sent at clock readings more than the
    cooldown apart. *)
Theorem service_alerts_apart (cs : list cycle) (st : state) :
  pairwise_apart cooldown (event_times any_alert (snd (service_trace upper cs st))).
Proof.
  apply (GateFacts.timed_run_apart section now any_alert cooldown
           last_service_alert_ts (fun _ => True)).
  - vm_compute. discriminate.
  - intros c st' _. split; [done|]. apply service_gate.
  - intros c st'. destruct (service_gate c st') as [_ [H | [Hl Ha]]]; [by left|].
    right. done.
Qed.

End Upper.

End ServicesFacts.

(** ** The df report *)

Module DiskReportFacts.
Import Sentinel DiskReport.

Section Parse.

Variable parse_int : string -> option Z.
Variable DISK_THRESHOLD_PCT : Q.

Local Abbreviation status := (get_remote_disk_status parse_int DISK_THRESHOLD_PCT).
Local Abbreviation parse := (parse_df_line parse_int).

Lemma parse_df_line_fields parts row :
  parse parts = Some row ->
  (6 <= length parts)%nat /\ parts !! 5%nat = Some (mount_point row).
Proof.
  unfold parse_df_line.
  destruct (6 <=? length parts)%nat eqn:Hlen; [|done].
  apply Nat.leb_le in Hlen.
  destruct (parts !! 5%nat) as [mount|]; [|done].
  destruct (parts !! 4%nat); [|done]. destruct (parts !! 2%nat); [|done].
  destruct (parts !! 1%nat); [|done].
  destruct (parse_int _); [|done]. destruct (parse_int _); [|done].
  destruct (parse_int _); [|done].
  intros H. inversion H; subst. done.
Qed.

(** X17.  A mount is in the alert list of [get_remote_disk_status] exactly
    when some line after the header has at least six fields, parses, and
    shows a usage at or above the threshold; it is then also in the report.
    An SSH error or an output of fewer than two lines gives no alert. *)
Theorem disk_alerts_iff (output : option (list (list string))) :
  (forall mount pct used_,
     (mount, pct, used_)
       ∈ snd (get_remote_disk_status parse_int DISK_THRESHOLD_PCT output) <->
     exists lines parts row,
       output = Some lines /\ (2 <= length lines)%nat /\
       parts ∈ tail lines /\ parse_df_line parse_int parts = Some row /\
       (6 <= length parts)%nat /\
       (DISK_THRESHOLD_PCT <= inject_Z (usage_pct row))%Q /\
       fst (get_remote_disk_status parse_int DISK_THRESHOLD_PCT output)
         <> SshError /\
       (exists rows,
          fst (get_remote_disk_status parse_int DISK_THRESHOLD_PCT output)
            = Mounts rows /\ row ∈ rows) /\
       (mount, pct, used_) = (mount_point row, usage_pct row, used row)) /\
  (output = None ->
   get_remote_disk_status parse_int DISK_THRESHOLD_PCT output = (SshError, [])) /\
  (forall lines, output = Some lines -> (length lines < 2)%nat ->
     get_remote_disk_status parse_int DISK_THRESHOLD_PCT output
       = (IncompleteOutput, [])).
Proof.
  split; [|split].
  - intros mount pct used_. unfold get_remote_disk_status.
    destruct output as [lines|].
    2:{ split; [intros H; by apply elem_of_nil in H|].
        intros (? & ? & ? & ? & _). done. }
    destruct (length lines <? 2)%nat eqn:Hlen;
      [apply Nat.ltb_lt in Hlen | apply Nat.ltb_ge in Hlen].
    { split; [intros H; by apply elem_of_nil in H|].
      intros (l & ? & ? & Hl & ? & _). inversion Hl; subst. lia. }
    cbn [fst snd]. unfold alert_data. split.
    + intros Hin. apply list_elem_of_fmap in Hin as (row & Heq & Hrow).
      apply list_elem_of_In, List.filter_In in Hrow as [Hrow Hpct].
      apply list_elem_of_In in Hrow. pose proof Hrow as Hrow'.
      apply list_elem_of_omap in Hrow as (parts & Hparts & Hparse).
      destruct (parse_df_line_fields parts row Hparse) as [Hlen6 _].
      apply NumFacts.geb_true in Hpct.
      exists lines, parts, row. repeat split; try done. by exists (omap parse (tail lines)).
    + intros (l & parts & row & Hl & _ & Hparts & Hparse & _ & Hpct & _ & _ & Heq).
      inversion Hl; subst l. rewrite Heq.
      apply (list_elem_of_fmap_2 (fun r => (mount_point r, usage_pct r, used r))).
      apply list_elem_of_In, List.filter_In. split.
      * apply list_elem_of_In, list_elem_of_omap. by exists parts.
      * by apply NumFacts.geb_true.
  - intros ->. done.
  - intros lines -> Hlen. unfold get_remote_disk_status.
    apply Nat.ltb_lt in Hlen. by rewrite Hlen.
Qed.

End Parse.

End DiskReportFacts.

(** ** Peers, invoices and the alias cache *)

Module LndMoreFacts.
Import Lnd.

Global Instance new_peer_inj : Inj (=) (=) NewPeerConnected.
Proof. intros a b H. by injection H. Qed.

Global Instance peer_gone_inj : Inj (=) (=) PeerDisconnected.
Proof. intros a b H. by injection H. Qed.

(** X18.  The peers check sends nothing exactly when the set of listed
    peers is the previous snapshot; it announces as connected exactly the
    listed peers not in the snapshot and as disconnected exactly the
    snapshot's peers no longer listed, each once, however often a peer is
    listed; and the new snapshot is the set of listed peers. *)
Theorem peers_check_changes (prev_peers : gset string) (peers : list string) :
  (snd (peers_check prev_peers peers) = [] <-> list_to_set peers = prev_peers) /\
  (forall pk, NewPeerConnected pk ∈ snd (peers_check prev_peers peers) <->
     pk ∈ peers /\ pk ∉ prev_peers) /\
  (forall pk, PeerDisconnected pk ∈ snd (peers_check prev_peers peers) <->
     pk ∈ prev_peers /\ pk ∉ peers) /\
  NoDup (snd (peers_check prev_peers peers)) /\
  fst (peers_check prev_peers peers) = list_to_set peers.
Proof.
  unfold peers_check. cbn [fst snd].
  set (cur := list_to_set peers : gset string).
  assert (forall pk, pk ∈ cur <-> pk ∈ peers) as Hcur
    by (intros pk; apply elem_of_list_to_set).
  assert (forall pk, NewPeerConnected pk
            ∈ map NewPeerConnected (elements (cur ∖ prev_peers))
              ++ map PeerDisconnected (elements (prev_peers ∖ cur))
          <-> pk ∈ cur /\ pk ∉ prev_peers) as Hnew.
  { intros pk. rewrite elem_of_app. split.
    - intros [H | H]; apply list_elem_of_fmap in H as (x & Hx & Hin);
        [|discriminate]. injection Hx as ->.
      apply elem_of_elements in Hin. set_solver.
    - intros H. left. apply list_elem_of_fmap. exists pk. split; [done|].
      apply elem_of_elements. set_solver. }
  assert (forall pk, PeerDisconnected pk
            ∈ map NewPeerConnected (elements (cur ∖ prev_peers))
              ++ map PeerDisconnected (elements (prev_peers ∖ cur))
          <-> pk ∈ prev_peers /\ pk ∉ cur) as Hgone.
  { intros pk. rewrite elem_of_app. split.
    - intros [H | H]; apply list_elem_of_fmap in H as (x & Hx & Hin);
        [discriminate|]. injection Hx as ->.
      apply elem_of_elements in Hin. set_solver.
    - intros H. right. apply list_elem_of_fmap. exists pk. split; [done|].
      apply elem_of_elements. set_solver. }
  split; [|split; [|split; [|split]]].
  - split.
    + intros Hnone. apply set_eq. intros pk.
      destruct (decide (pk ∈ cur)) as [Hin | Hout];
        destruct (decide (pk ∈ prev_peers)) as [Hin' | Hout']; try tauto.
      * assert (NewPeerConnected pk ∈ @nil alert) as H
          by (rewrite <- Hnone; apply Hnew; done). by apply elem_of_nil in H.
      * assert (PeerDisconnected pk ∈ @nil alert) as H
          by (rewrite <- Hnone; apply Hgone; done). by apply elem_of_nil in H.
    + intros <-. rewrite !difference_diag_L, elements_empty. done.
  - intros pk. rewrite Hnew, Hcur. done.
  - intros pk. rewrite Hgone, Hcur. done.
  - apply NoDup_app. split; [|split].
    + apply (NoDup_fmap_2 NewPeerConnected), NoDup_elements.
    + intros a Ha Hb. apply list_elem_of_fmap in Ha as (x & -> & _).
      apply list_elem_of_fmap in Hb as (y & Hy & _). discriminate.
    + apply (NoDup_fmap_2 PeerDisconnected), NoDup_elements.
  - done.
Qed.

End LndMoreFacts.

Module InvoicesFacts.
Import Invoices.

Lemma elem_of_hashes (s : gset (string * Z)) (rh : string) :
  rh ∈ hashes s <-> exists v, (rh, v) ∈ s.
Proof.
  unfold hashes. rewrite elem_of_map. split.
  - intros ([rh' v] & -> & Hin). by exists v.
  - intros (v & Hin). by exists (rh, v).
Qed.

Lemma elem_of_settled_set invoices rh v :
  (rh, v) ∈ settled_set invoices <->
  exists inv, inv ∈ invoices /\ settled inv = true /\
    invoice_key inv = rh /\ value inv = v.
Proof.
  unfold settled_set. rewrite elem_of_list_to_set, list_elem_of_fmap. split.
  - intros (inv & Heq & Hin). inversion Heq; subst.
    apply list_elem_of_In, List.filter_In in Hin as [Hin Hs].
    exists inv. split; [by apply list_elem_of_In | done].
  - intros (inv & Hin & Hs & <- & <-). exists inv. split; [done|].
    apply list_elem_of_In, List.filter_In. split; [by apply list_elem_of_In | done].
Qed.

(** X19.  An invoice is announced exactly when it is settled in the current
    list and its hash is not the hash of any pair of the previous snapshot:
    a hash seen before is never announced again, even with another amount,
    an unsettled invoice never, and an unchanged list announces nothing;
    one message is sent per pair announced, each pair once. *)
Theorem invoices_announced_iff (prev : gset (string * Z)) (invoices : list invoice) :
  (forall rh v,
     (rh, v) ∈ new_settled prev (settled_set invoices) <->
     (exists inv, inv ∈ invoices /\ settled inv = true /\
        invoice_key inv = rh /\ value inv = v) /\
     (forall v', (rh, v') ∉ prev)) /\
  NoDup (new_settled prev (settled_set invoices)) /\
  snd (invoices_check prev invoices)
    = map snd (new_settled prev (settled_set invoices)) /\
  snd (invoices_check (settled_set invoices) invoices) = [].
Proof.
  split; [|split; [|split]].
  - intros rh v. unfold new_settled.
    rewrite list_elem_of_In, List.filter_In, <- list_elem_of_In, elem_of_elements.
    rewrite elem_of_settled_set. cbn [fst].
    rewrite bool_decide_eq_true, elem_of_hashes. split.
    + intros [Hin Hnot]. split; [done|]. intros v' Hv'. apply Hnot. by exists v'.
    + intros [Hin Hnot]. split; [done|]. intros (v' & Hv'). by apply (Hnot v').
  - unfold new_settled. apply NoDup_ListNoDup, List.NoDup_filter, NoDup_ListNoDup.
    apply NoDup_elements.
  - done.
  - unfold invoices_check, new_settled. cbn [snd].
    assert (List.filter
              (fun rv => bool_decide (fst rv ∉ hashes (settled_set invoices)))
              (elements (settled_set invoices)) = []) as ->; [|done].
    apply MarketFacts.filter_not. apply Forall_forall. intros [rh v] Hin.
    apply elem_of_elements in Hin. apply bool_decide_eq_false. cbn [fst].
    intros Hnot. apply Hnot. apply elem_of_hashes. by exists v.
Qed.

End InvoicesFacts.

Module AliasCacheFacts.
Import AliasCache.

Lemma alias_of_truthy answer :
  alias_of answer = None \/ truthy (alias_of answer) = true.
Proof.
  destruct answer as [[na ia]|]; [|by left]. simpl.
  destruct (truthy na) eqn:Hn; [by right|].
  destruct (truthy ia) eqn:Hi; [by right | by left].
Qed.

(** X20.  A public key that is absent or empty gets no alias and leaves the
    cache as it is.  For any other key the first lookup stores its answer,
    an alias or none, and every later call for that key returns the stored
    answer without asking the client again, whatever the client would say
    now; a lookup never touches what is cached for another key, and no
    alias returned or cached is the empty text. *)
Theorem alias_cache_memo (client client' : string -> option node_info)
    (pk : string) (cache : gmap string (option string)) :
  get_alias_for_pubkey client None cache = (None, cache) /\
  get_alias_for_pubkey client (Some ""%string) cache = (None, cache) /\
  (pk <> ""%string ->
   get_alias_for_pubkey client' (Some pk)
     (snd (get_alias_for_pubkey client (Some pk) cache))
     = get_alias_for_pubkey client (Some pk) cache) /\
  (forall pk', pk' <> pk ->
     snd (get_alias_for_pubkey client (Some pk) cache) !! pk' = cache !! pk') /\
  (clean cache ->
   clean (snd (get_alias_for_pubkey client (Some pk) cache)) /\
   fst (get_alias_for_pubkey client (Some pk) cache) <> Some ""%string).
Proof.
  split; [done|]. split; [done|]. unfold get_alias_for_pubkey.
  split; [|split].
  - intros Hpk. cbn [truthy]. rewrite bool_decide_eq_false_2 by done. cbn [negb].
    destruct (cache !! pk) as [cached|] eqn:Hc.
    + cbn [snd]. by rewrite Hc.
    + cbn [snd]. by rewrite lookup_insert_eq.
  - intros pk' Hne. destruct (truthy (Some pk)); [|done].
    destruct (cache !! pk) as [cached|] eqn:Hc; [done|].
    cbn [snd]. by rewrite lookup_insert_ne.
  - intros Hclean. destruct (truthy (Some pk)); [|by split].
    destruct (cache !! pk) as [cached|] eqn:Hc.
    + cbn [fst snd]. split; [done|]. intros ->. by apply (Hclean pk).
    + cbn [fst snd].
      assert (alias_of (client pk) <> Some ""%string) as Hnonempty.
      { destruct (alias_of_truthy (client pk)) as [-> | Ht]; [done|].
        intros Heq. rewrite Heq in Ht. done. }
      split; [|done]. intros pk'.
      destruct (decide (pk = pk')) as [<- | Hne].
      * rewrite lookup_insert_eq. congruence.
      * rewrite lookup_insert_ne by done. apply Hclean.
Qed.

Lemma alias_cache_memo_witness :
  "02abc"%string <> ""%string /\
  clean ∅ /\
  get_alias_for_pubkey (fun _ => Some {| node_alias := Some "later"%string;
                                          info_alias := None |})
    (Some "02abc"%string)
    (snd (get_alias_for_pubkey (fun _ => None) (Some "02abc"%string) ∅))
    = (None, {[ "02abc"%string := None ]}).
Proof.
  split; [discriminate|]. split; [intros pk; by rewrite lookup_empty|].
  destruct (alias_cache_memo (fun _ => None)
              (fun _ => Some {| node_alias := Some "later"%string; info_alias := None |})
              "02abc"%string ∅) as (_ & _ & Hmemo & _).
  rewrite Hmemo; [reflexivity | discriminate].
Defined.

End AliasCacheFacts.

(** ** Texts for the replies *)

Module HtmlFacts.
Import Html.

Lemma append_cons (ch : Ascii.ascii) (a b : string) :
  (String ch a +:+ b)%string = String ch (a +:+ b)%string.
Proof. reflexivity. Qed.

Lemma append_assoc (a b c : string) : ((a +:+ b) +:+ c = a +:+ (b +:+ c))%string.
Proof.
  induction a as [|ch a IH]; [done|]. rewrite !append_cons. by rewrite IH.
Qed.

Lemma replace_char_app c r a b :
  replace_char c r (a +:+ b) = (replace_char c r a +:+ replace_char c r b)%string.
Proof.
  induction a as [|ch a IH]; [done|].
  rewrite append_cons. cbn [replace_char].
  destruct (Ascii.eqb ch c); rewrite IH;
    [symmetry; apply append_assoc | done].
Qed.

Lemma occurs_app c a b : occurs c (a +:+ b) = occurs c a || occurs c b.
Proof.
  induction a as [|ch a IH]; [done|].
  rewrite append_cons. cbn [occurs]. by rewrite IH, orb_assoc.
Qed.

(** The three passes escape each character on its own. *)
Lemma escape_html_one_pass t : escape_html (Some t) = escape_chars t.
Proof.
  unfold escape_html. induction t as [|a t IH]; [done|].
  cbn [replace_char escape_chars]. unfold escape_char.
  destruct (Ascii.eqb a "&") eqn:Hamp.
  - rewrite !replace_char_app, IH. reflexivity.
  - cbn [replace_char]. destruct (Ascii.eqb a "<") eqn:Hlt.
    + rewrite replace_char_app, IH. reflexivity.
    + cbn [replace_char]. destruct (Ascii.eqb a ">") eqn:Hgt.
      * by rewrite IH.
      * by rewrite IH.
Qed.

Lemma escape_chars_app a b :
  escape_chars (a +:+ b) = (escape_chars a +:+ escape_chars b)%string.
Proof.
  induction a as [|ch a IH]; [done|].
  rewrite append_cons. cbn [escape_chars]. rewrite IH. symmetry. apply append_assoc.
Qed.

Lemma escape_char_clean a :
  occurs "<" (escape_char a) = false /\ occurs ">" (escape_char a) = false.
Proof.
  unfold escape_char.
  destruct (Ascii.eqb a "&") eqn:Hamp; [done|].
  destruct (Ascii.eqb a "<") eqn:Hlt; [done|].
  destruct (Ascii.eqb a ">") eqn:Hgt; [done|].
  simpl. by rewrite Hlt, Hgt.
Qed.

Lemma escape_char_head a :
  exists h rest, escape_char a = String h rest /\
    (rest = EmptyString /\ h = a /\ a <> "&"%char \/
     h = "&"%char /\
     (a = "&"%char /\ rest = "amp;"%string \/
      a = "<"%char /\ rest = "lt;"%string \/
      a = ">"%char /\ rest = "gt;"%string)).
Proof.
  unfold escape_char.
  destruct (Ascii.eqb a "&") eqn:Hamp.
  { apply Ascii.eqb_eq in Hamp. do 2 eexists. split; [reflexivity|]. right. auto. }
  destruct (Ascii.eqb a "<") eqn:Hlt.
  { apply Ascii.eqb_eq in Hlt. do 2 eexists. split; [reflexivity|]. right. auto. }
  destruct (Ascii.eqb a ">") eqn:Hgt.
  { apply Ascii.eqb_eq in Hgt. do 2 eexists. split; [reflexivity|]. right. auto. }
  apply Ascii.eqb_neq in Hamp. do 2 eexists. split; [reflexivity|]. left. done.
Qed.

Lemma escape_chars_inj a b : escape_chars a = escape_chars b -> a = b.
Proof.
  revert b. induction a as [|x a IH]; intros b Heq.
  - destruct b as [|y b]; [done|]. cbn [escape_chars] in Heq.
    destruct (escape_char_head y) as (h & rest & Hy & _).
    rewrite Hy, append_cons in Heq. done.
  - destruct b as [|y b]; cbn [escape_chars] in Heq.
    { destruct (escape_char_head x) as (h & rest & Hx & _).
      rewrite Hx, append_cons in Heq. done. }
    destruct (escape_char_head x) as (hx & rx & Hx & Hcx).
    destruct (escape_char_head y) as (hy & ry & Hy & Hcy).
    rewrite Hx, Hy, !append_cons in Heq. injection Heq as Hh Hrest.
    destruct Hcx as [(-> & -> & Hnx) | (-> & Hcx)];
      destruct Hcy as [(-> & -> & Hny) | (-> & Hcy)].
    + subst. f_equal. by apply IH.
    + congruence.
    + congruence.
    + destruct Hcx as [[-> ->] | [[-> ->] | [-> ->]]];
        destruct Hcy as [[-> ->] | [[-> ->] | [-> ->]]];
        rewrite ?append_cons in Hrest; try discriminate;
        f_equal; apply IH; by injection Hrest.
Qed.

(** X21.  The escaped text holds no [<] and no [>]; a missing text gives the
    empty text; two texts with the same escape are the same text; and the
    escape of a concatenation is the concatenation of the escapes. *)
Theorem escape_html_safe :
  escape_html None = ""%string /\
  (forall t, occurs "<" (escape_html (Some t)) = false /\
             occurs ">" (escape_html (Some t)) = false) /\
  (forall a b, escape_html (Some a) = escape_html (Some b) -> a = b) /\
  (forall a b, escape_html (Some (a +:+ b)%string)
     = (escape_html (Some a) +:+ escape_html (Some b))%string).
Proof.
  split; [done|]. split; [|split].
  - intros t. rewrite escape_html_one_pass.
    induction t as [|a t [IH1 IH2]]; [done|].
    cbn [escape_chars]. rewrite !occurs_app, IH1, IH2.
    destruct (escape_char_clean a) as [-> ->]. done.
  - intros a b. rewrite !escape_html_one_pass. apply escape_chars_inj.
  - intros a b. rewrite !escape_html_one_pass. apply escape_chars_app.
Qed.

Lemma escape_html_safe_witness :
  escape_html (Some "a<b>&c"%string) = "a&lt;b&gt;&amp;c"%string /\
  (escape_html (Some "a<b"%string) = escape_html (Some "a<b"%string) ->
   "a<b"%string = "a<b"%string).
Proof.
  split; [reflexivity|].
  destruct escape_html_safe as (_ & _ & Hinj & _).
  apply Hinj.
Defined.

End HtmlFacts.

Module HumanBytesFacts.
Import HumanBytes.

Lemma round_half_even_near x :
  (x - (1 # 2) <= inject_Z (round_half_even x))%Q /\
  (inject_Z (round_half_even x) <= x + (1 # 2))%Q.
Proof.
  unfold round_half_even.
  pose proof (Qfloor_le x) as Hlo. pose proof (Qlt_floor x) as Hhi.
  rewrite inject_Z_plus in Hhi. change (inject_Z 1) with 1%Q in Hhi.
  destruct (Num.ltb (x - inject_Z (Qfloor x)) (1 # 2)) eqn:H1; num_prop.
  { split; lra. }
  destruct (Num.gtb (x - inject_Z (Qfloor x)) (1 # 2)) eqn:H2; num_prop.
  { rewrite inject_Z_plus. change (inject_Z 1) with 1%Q. split; lra. }
  destruct (Z.even (Qfloor x)).
  - split; lra.
  - rewrite inject_Z_plus. change (inject_Z 1) with 1%Q. split; lra.
Qed.

Lemma div_1024 (x : Q) : (x == x / 1024 * 1024)%Q.
Proof. field. Qed.

Lemma shown_in_range (m : Q) (u : string) :
  (0 <= m)%Q -> (m < 1024)%Q ->
  (0 <= fst (round_half_even m, u) <= 1024)%Z.
Proof.
  intros Hlo Hhi. cbn [fst].
  destruct (round_half_even_near m) as [Hnear1 Hnear2].
  split.
  - destruct (Z_lt_le_dec (round_half_even m) 0) as [Hneg|]; [|done].
    assert ((round_half_even m <= -1)%Z) as Hle by lia.
    rewrite Zle_Qle in Hle. change (inject_Z (-1)) with (-1)%Q in Hle. lra.
  - destruct (Z_lt_le_dec 1024 (round_half_even m)) as [Hbig|]; [|done].
    assert ((1025 <= round_half_even m)%Z) as Hle by lia.
    rewrite Zle_Qle in Hle. change (inject_Z 1025) with 1025%Q in Hle. lra.
Qed.

(** X22.  For a byte count that is not negative the unit is fixed by the
    size alone: B below 1024, KB below 1024^2, MB below 1024^3, GB below
    1024^4, TB below 1024^5 and PB from there on; the number shown is the
    count divided by the matching power of 1024, rounded to the nearest
    integer, so below 1024^5 it lies between 0 and 1024. *)
Theorem human_bytes_ranges (n : Q) :
  (0 <= n)%Q ->
  ((n < 1024)%Q /\ human_bytes n = (round_half_even n, "B"%string) \/
   (1024 <= n)%Q /\ (n < 1024 * 1024)%Q /\
     human_bytes n = (round_half_even (n / 1024), "KB"%string) \/
   (1024 * 1024 <= n)%Q /\ (n < 1024 * 1024 * 1024)%Q /\
     human_bytes n = (round_half_even (n / 1024 / 1024), "MB"%string) \/
   (1024 * 1024 * 1024 <= n)%Q /\ (n < 1024 * 1024 * 1024 * 1024)%Q /\
     human_bytes n = (round_half_even (n / 1024 / 1024 / 1024), "GB"%string) \/
   (1024 * 1024 * 1024 * 1024 <= n)%Q /\ (n < 1024 * 1024 * 1024 * 1024 * 1024)%Q /\
     human_bytes n
       = (round_half_even (n / 1024 / 1024 / 1024 / 1024), "TB"%string) \/
   (1024 * 1024 * 1024 * 1024 * 1024 <= n)%Q /\
     human_bytes n
       = (round_half_even (n / 1024 / 1024 / 1024 / 1024 / 1024), "PB"%string)) /\
  ((n < 1024 * 1024 * 1024 * 1024 * 1024)%Q ->
   (0 <= fst (human_bytes n) <= 1024)%Z).
Proof.
  intros Hn. unfold human_bytes. cbn [scale].
  pose proof (div_1024 n) as E1.
  pose proof (div_1024 (n / 1024)) as E2.
  pose proof (div_1024 (n / 1024 / 1024)) as E3.
  pose proof (div_1024 (n / 1024 / 1024 / 1024)) as E4.
  pose proof (div_1024 (n / 1024 / 1024 / 1024 / 1024)) as E5.
  destruct (Num.ltb n 1024) eqn:H0; num_prop.
  { split; [left; done|]. intros _. apply shown_in_range; lra. }
  destruct (Num.ltb (n / 1024) 1024) eqn:H1; num_prop.
  { split; [right; left; repeat split; try done; lra|].
    intros _. apply shown_in_range; lra. }
  destruct (Num.ltb (n / 1024 / 1024) 1024) eqn:H2; num_prop.
  { split; [right; right; left; repeat split; try done; lra|].
    intros _. apply shown_in_range; lra. }
  destruct (Num.ltb (n / 1024 / 1024 / 1024) 1024) eqn:H3; num_prop.
  { split; [right; right; right; left; repeat split; try done; lra|].
    intros _. apply shown_in_range; lra. }
  destruct (Num.ltb (n / 1024 / 1024 / 1024 / 1024) 1024) eqn:H4; num_prop.
  { split; [right; right; right; right; left; repeat split; try done; lra|].
    intros _. apply shown_in_range; lra. }
  split; [|intros Hsmall; lra].
  right; right; right; right; right. split; [lra | done].
Qed.

Lemma human_bytes_ranges_witness :
  (0 <= 1048575)%Q /\ human_bytes 1048575 = (1024%Z, "KB"%string).
Proof.
  assert ((0 <= 1048575)%Q) as Hn by (vm_compute; discriminate).
  split; [exact Hn|].
  destruct (human_bytes_ranges 1048575 Hn)
    as [[(Hb & _) | [(_ & _ & ->) | [(Hm & _) | [(Hg & _) | [(Ht & _) | (Hp & _)]]]]] _].
  - vm_compute in Hb. discriminate.
  - reflexivity.
  - exfalso. apply Hm. reflexivity.
  - exfalso. apply Hg. reflexivity.
  - exfalso. apply Ht. reflexivity.
  - exfalso. apply Hp. reflexivity.
Defined.

End HumanBytesFacts.

(** ** The restart commands *)

Module AdminFacts.
Import Admin.

(** X23.  A restart command runs something over SSH exactly when the chat
    it comes from is the configured one; it then runs the one fixed restart
    command of its service and nothing else, and from any other chat the
    only reply is the denial. *)
Theorem restart_only_for_owner (t : target) (CHAT_ID chat : Z)
    (run_remote_command : string -> option string) :
  (snd (restart_cmd t CHAT_ID chat run_remote_command) <> [] <-> chat = CHAT_ID) /\
  (chat = CHAT_ID ->
   snd (restart_cmd t CHAT_ID chat run_remote_command) = [RESTART_CMD t] /\
   AccessDenied ∉ fst (restart_cmd t CHAT_ID chat run_remote_command)) /\
  (chat <> CHAT_ID ->
   restart_cmd t CHAT_ID chat run_remote_command = ([AccessDenied], [])).
Proof.
  unfold restart_cmd.
  destruct (decide (chat = CHAT_ID)) as [-> | Hne].
  - rewrite bool_decide_eq_false_2 by (intros H; by apply H).
    destruct (run_remote_command (RESTART_CMD t)) as [error|]; cbn [fst snd];
      (split; [split; [done | intros _; discriminate]|]);
      (split; [|done]); intros _; (split; [done|]);
      intros Hin; apply elem_of_cons in Hin as [Hin | Hin]; try discriminate;
      apply list_elem_of_singleton in Hin; discriminate.
  - rewrite bool_decide_eq_true_2 by done. cbn [fst snd].
    split; [split; [done | intros ->; done]|]. split; [done | done].
Qed.

Lemma restart_only_for_owner_witness :
  (7 <> 42)%Z /\
  restart_cmd RestartLnd 42 7 (fun _ => None) = ([AccessDenied], []) /\
  snd (restart_cmd RestartLnd 42 42 (fun _ => None)) = ["sudo systemctl restart lnd"%string].
Proof.
  destruct (restart_only_for_owner RestartLnd 42 7 (fun _ => None)) as (_ & _ & Hdeny).
  destruct (restart_only_for_owner RestartLnd 42 42 (fun _ => None)) as (_ & Hown & _).
  split; [discriminate|]. split.
  - apply Hdeny. discriminate.
  - exact (proj1 (Hown eq_refl)).
Defined.

End AdminFacts.

(** ** Worked inputs for the statements above *)

Module Worked.
Import Samples.

Lemma old_price_lookup_chronological_witness :
  Crypto.chronological Crypto.three_samples /\
  Crypto.old_price_lookup (Crypto.t0 + 10000) Crypto.three_samples
    = Some (Crypto.entry 60000 Crypto.t0).
Proof.
  assert (Crypto.chronological Crypto.three_samples) as Hs.
  { repeat constructor; vm_compute; discriminate. }
  split; [exact Hs|].
  rewrite (CryptoFacts.old_price_lookup_chronological (Crypto.t0 + 10000)
             Crypto.three_samples Hs).
  reflexivity.
Defined.

Lemma macro_report_posted_iff_witness :
  Crypto.current_fee_state (Crypto.running Crypto.LOW 0 0 0 Crypto.t0 [])
    <> Crypto.INIT /\
  Crypto.LAST_MACRO_REPORT_TS
    (fst (Crypto.macro_section (Crypto.fee_cycle (Crypto.t0 + 90000) 3)
            (Crypto.running Crypto.LOW 0 0 0 Crypto.t0 [])))
    = (Crypto.t0 + 90000)%Q.
Proof.
  split; [discriminate|].
  apply (proj2 (AnalysisFacts.macro_report_posted_iff
                  (Crypto.fee_cycle (Crypto.t0 + 90000) 3)
                  (Crypto.running Crypto.LOW 0 0 0 Crypto.t0 []))).
  - discriminate.
  - reflexivity.
Defined.

Lemma service_messages_sound_witness :
  Services.ServiceDown Services.LND "INACTIVE"
    ∈ snd (Services.service_section (fun s => s) (both_down Crypto.t0) both_active) /\
  Services.last_btc_service_status
    (fst (Services.service_section (fun s => s) (both_down Crypto.t0) both_active))
    = "ACTIVE"%string.
Proof.
  assert (Services.ServiceDown Services.LND "INACTIVE"
            ∈ snd (Services.service_section (fun s => s) (both_down Crypto.t0)
                     both_active)) as Hin.
  { vm_compute. apply elem_of_cons. by left. }
  split; [exact Hin|].
  destruct (ServicesFacts.service_messages_sound (fun s => s) (both_down Crypto.t0)
              both_active) as (_ & _ & Hbtc).
  rewrite (Hbtc _ Hin); [reflexivity|]. exists "INACTIVE"%string. by left.
Defined.

Lemma disk_alerts_iff_witness :
  snd (DiskReport.get_remote_disk_status parse_two_digits 90 (Some df_output))
    = [("/"%string, 95%Z, 921600%Z)] /\
  DiskReport.get_remote_disk_status parse_two_digits 90 None
    = (DiskReport.SshError, []) /\
  DiskReport.get_remote_disk_status parse_two_digits 90 (Some [["Filesystem"%string]])
    = (DiskReport.IncompleteOutput, []).
Proof.
  split; [by vm_compute|].
  destruct (DiskReportFacts.disk_alerts_iff parse_two_digits 90 None)
    as (_ & Hnone & _).
  destruct (DiskReportFacts.disk_alerts_iff parse_two_digits 90
              (Some [["Filesystem"%string]])) as (_ & _ & Hshort).
  split; [by apply Hnone|]. apply (Hshort [["Filesystem"%string]]); [done|].
  simpl. lia.
Defined.

End Worked.
